(** * Sw.js: the service worker's cache lifecycle and request routing

    A shallow embedding of [src/Sw.js].  The worker registers four
    listeners ([install], [activate], [fetch], [message]); each one is
    embedded as a computation in a small monad [SW] that threads the
    [CacheStorage] of the origin and records the platform calls the
    handler makes ([fetch], [caches.match], [caches.open], [cache.put],
    [caches.keys], [caches.delete], [skipWaiting], [clients.claim]).

    The platform objects the script talks to are not part of the script;
    they are modelled as follows.
    - The network is a function [networkFetch] from a request to the way
      the promise of [fetch(request)] settles.
    - [CacheStorage] is an ordered association list of named caches, a
      cache an ordered association list from the URL of a [GET] request
      to the stored response: [caches.keys()] and [caches.match] go
      through the caches in creation order.  Matching is by URL.
      [cache.put] refuses a response with status 206 and a response
      whose [Vary] header has the value [*]: the call is made, its
      promise rejects and nothing is stored.  [cache.addAll] refuses
      the same responses, and those that are not [ok].
    - A call is logged when the script makes it.  What the call does to
      the store comes with it when the script waits for the call, and
      later, when the write it belongs to is left to complete on its
      own.
    - A URL is an http(s) URL, kept parsed (origin, path, query); a
      path such as ['/offline.html'] is resolved against the worker's
      own origin. *)

From Stdlib Require Import String Ascii List ZArith Bool.
Import ListNotations.

Open Scope string_scope.
Open Scope list_scope.

(* ------------------------------------------------------------------ *)
(** ** Requests and responses *)

Record URL := mkURL {
  origin : string;
  pathname : string;
  search : string
}.

Definition URL_eqb (a b : URL) : bool :=
  (origin a =? origin b) && (pathname a =? pathname b) && (search a =? search b).

(** A [Headers] object: names are stored in lower case. *)
Definition Headers := list (string * string).

(** [headers.get(name)]: [null] when no header has the name, else the
    values joined with a comma and a space. *)
Definition headers_get (name : string) (h : Headers) : option string :=
  match filter (fun e => fst e =? name) h with
  | [] => None
  | vs => Some (String.concat ", " (map snd vs))
  end.

Record Request := mkRequest {
  method : string;
  url : URL;
  mode : string;
  destination : string;
  req_headers : Headers
}.

Record Response := mkResponse {
  status : Z;
  statusText : string;
  type : string;
  headers : Headers;
  body : option string
}.

(** How the promise of [fetch(request)] settles, for the worker and for
    the page alike. *)
Inductive Settled :=
| Fulfilled (res : Response)
| Rejected.

(** [new Response(body, { status, statusText })]. *)
Definition Response_new (b : option string) (st : Z) (txt : string) : Response :=
  {| status := st; statusText := txt; type := "default"; headers := []; body := b |}.

(** [s.startsWith(searchString)] and [s.includes(searchString)]. *)
Definition startsWith (s searchString : string) : bool :=
  String.prefix searchString s.

Fixpoint includes (s searchString : string) : bool :=
  String.prefix searchString s ||
  match s with
  | EmptyString => false
  | String _ rest => includes rest searchString
  end.

Arguments startsWith : simpl never.

(** The field values of a header value that lists several, separated by
    commas. *)
Fixpoint split_commas (s : string) : list string :=
  match s with
  | EmptyString => [EmptyString]
  | String c rest =>
      if (c =? ",")%char then EmptyString :: split_commas rest
      else match split_commas rest with
           | [] => [String c EmptyString]
           | v :: vs => String c v :: vs
           end
  end.

Definition is_ws (c : ascii) : bool := (c =? " ")%char || (c =? "009")%char.

Fixpoint only_ws (s : string) : bool :=
  match s with
  | EmptyString => true
  | String c rest => is_ws c && only_ws rest
  end.

(** A field value that is [*], spaces and tabs around it apart. *)
Fixpoint is_star (s : string) : bool :=
  match s with
  | EmptyString => false
  | String c rest => if is_ws c then is_star rest else (c =? "*")%char && only_ws rest
  end.

(** The header list has a [Vary] header with the field value [*]. *)
Definition vary_star (h : Headers) : bool :=
  existsb (fun e => (fst e =? "vary") && existsb is_star (split_commas (snd e))) h.

(** [response.ok] *)
Definition ok (res : Response) : bool :=
  (200 <=? status res)%Z && (status res <=? 299)%Z.

(** The responses [cache.put] rejects: a partial response (status 206)
    and a response that varies on everything. *)
Definition put_refused (res : Response) : bool :=
  (status res =? 206)%Z || vary_star (headers res).

Arguments put_refused : simpl never.

(** The responses [cache.addAll] takes: [ok], and not one of those
    [cache.put] rejects. *)
Definition addAll_accepts (res : Response) : bool :=
  ok res && negb (put_refused res).

(* ------------------------------------------------------------------ *)
(** ** The cache store *)

Definition Cache := list (URL * Response).
Definition CacheStorage := list (string * Cache).

(** [cache.match(key)]: [undefined] is [None]. *)
Definition cache_match (k : URL) (c : Cache) : option Response :=
  match find (fun e => URL_eqb (fst e) k) c with
  | Some e => Some (snd e)
  | None => None
  end.

(** [caches.match(key)]: the first hit, caches taken in creation order. *)
Fixpoint storage_match (k : URL) (cs : CacheStorage) : option Response :=
  match cs with
  | [] => None
  | (_, c) :: rest =>
      match cache_match k c with
      | Some r => Some r
      | None => storage_match k rest
      end
  end.

Definition storage_has (n : string) (cs : CacheStorage) : bool :=
  existsb (fun e => fst e =? n) cs.

(** [caches.open(name)] creates the cache when there is none of that name. *)
Definition storage_open (n : string) (cs : CacheStorage) : CacheStorage :=
  if storage_has n cs then cs else cs ++ [(n, [])].

(** [cache.put(key, response)]: last write wins. *)
Definition cache_put (k : URL) (v : Response) (c : Cache) : Cache :=
  filter (fun e => negb (URL_eqb (fst e) k)) c ++ [(k, v)].

Definition storage_put (n : string) (k : URL) (v : Response) (cs : CacheStorage)
  : CacheStorage :=
  map (fun e => if fst e =? n then (fst e, cache_put k v (snd e)) else e) cs.

(** [caches.keys()] and [caches.delete(name)]. *)
Definition storage_keys (cs : CacheStorage) : list string := map fst cs.

Definition storage_delete (n : string) (cs : CacheStorage) : CacheStorage :=
  filter (fun e => negb (fst e =? n)) cs.

(** The contents of the generation called [n], if it is present. *)
Definition storage_get (n : string) (cs : CacheStorage) : option Cache :=
  match find (fun e => fst e =? n) cs with
  | Some e => Some (snd e)
  | None => None
  end.

(* ------------------------------------------------------------------ *)
(** ** The worker's monad *)

(** A cache write that a handler starts and does not wait for:
    [caches.open(target).then((cache) => cache.put(request, copy))]. *)
Record Write := mkWrite {
  target : string;
  key : URL;
  copy : Response
}.

Record World := mkWorld {
  caches : CacheStorage;
  detached : list Write
}.

(** The platform calls a handler makes, in the order it makes them. *)
Inductive Effect :=
| NetworkFetch (request : Request)
| CachesMatch (k : URL)
| CachesOpen (n : string)
| CachePut (n : string) (k : URL) (v : Response)
| CachesKeys
| CachesDelete (n : string)
| SkipWaiting
| ClientsClaim.

Definition SW (A : Type) : Type := World -> A * World * list Effect.

Definition ret {A} (a : A) : SW A := fun w => (a, w, []).

Definition bind {A B} (m : SW A) (f : A -> SW B) : SW B :=
  fun w =>
    let '(a, w1, t1) := m w in
    let '(b, w2, t2) := f a w1 in
    (b, w2, t1 ++ t2).

Declare Scope sw_scope.
Delimit Scope sw_scope with sw.
Notation "x <- m ;; k" := (bind m (fun x => k))
  (at level 61, m at next level, right associativity) : sw_scope.
Notation "m ;; k" := (bind m (fun _ => k))
  (at level 61, right associativity) : sw_scope.
Open Scope sw_scope.

Definition result {A} (r : A * World * list Effect) : A := fst (fst r).
Definition world {A} (r : A * World * list Effect) : World := snd (fst r).
Definition effects {A} (r : A * World * list Effect) : list Effect := snd r.

Definition caches_match (k : URL) : SW (option Response) :=
  fun w => (storage_match k (caches w), w, [CachesMatch k]).

Definition caches_open (n : string) : SW unit :=
  fun w => (tt, {| caches := storage_open n (caches w); detached := detached w |},
            [CachesOpen n]).

(** [cache.put(key, response)] on the cache called [n]: the call is
    made, and the response is stored unless the cache refuses it. *)
Definition cache_put_in (n : string) (k : URL) (v : Response) : SW unit :=
  fun w => (tt,
            {| caches := if put_refused v then caches w
                         else storage_put n k v (caches w);
               detached := detached w |},
            [CachePut n k v]).

Definition caches_keys : SW (list string) :=
  fun w => (storage_keys (caches w), w, [CachesKeys]).

Definition caches_delete (n : string) : SW unit :=
  fun w => (tt, {| caches := storage_delete n (caches w); detached := detached w |},
            [CachesDelete n]).

Definition skipWaiting : SW unit := fun w => (tt, w, [SkipWaiting]).
Definition clients_claim : SW unit := fun w => (tt, w, [ClientsClaim]).

(** Start a write without waiting for it. *)
Definition detach (wr : Write) : SW unit :=
  fun w => (tt, {| caches := caches w; detached := detached w ++ [wr] |}, []).

(** A call the script makes and does not wait for. *)
Definition started (e : Effect) : SW unit := fun w => (tt, w, [e]).

(** The promise of a [caches.open(n)] that was started resolves. *)
Definition opened (n : string) : SW unit :=
  fun w => (tt, {| caches := storage_open n (caches w); detached := detached w |}, []).

(** A write completes: the cache is there, then [cache.put] is called. *)
Definition run_write (wr : Write) : SW unit :=
  opened (target wr) ;; cache_put_in (target wr) (key wr) (copy wr).

(** The store after a write completed. *)
Definition written (wr : Write) (cs : CacheStorage) : CacheStorage :=
  if put_refused (copy wr) then storage_open (target wr) cs
  else storage_put (target wr) (key wr) (copy wr) (storage_open (target wr) cs).

Fixpoint run_writes (ws : list Write) : SW unit :=
  match ws with
  | [] => ret tt
  | wr :: rest => run_write wr ;; run_writes rest
  end.

(** The writes in flight run to completion, oldest first. *)
Definition settle : SW unit :=
  fun w => run_writes (detached w) {| caches := caches w; detached := [] |}.

(* ------------------------------------------------------------------ *)
(** ** The script *)

Definition CACHE_VERSION : string := "v1.0.0".
Definition STATIC_CACHE : string := "static-" ++ CACHE_VERSION.
Definition RUNTIME_CACHE : string := "runtime-" ++ CACHE_VERSION.

Definition STATIC_ASSETS : list string :=
  [ "/";
    "/index.html";
    "/offline.html";
    "/styles/main.css";
    "/scripts/main.js";
    "/manifest.json";
    "/icons/icon-192x192.png";
    "/icons/icon-512x512.png" ].

(** What a [fetch] listener does with the event: it returns without
    calling [event.respondWith], and the browser performs the request
    itself; or it calls [event.respondWith] with a promise, which
    resolves with a response or with [undefined] ([None]). *)
Inductive Outcome :=
| NotIntercepted
| RespondWith (settled : option Response).

(** The data of a [message] event, as far as the listener reads it:
    [event.data] ([None] when falsy) and its [type] field. *)
Record MessageData := mkMessageData { msg_type : string }.

Section Worker.

(** The origin the worker is served from, and the network. *)
Variable self_origin : string.
Variable networkFetch : Request -> Settled.

(** A path handed to the cache API is resolved against the worker's
    origin, and requested with [GET]. *)
Definition self_url (path : string) : URL :=
  {| origin := self_origin; pathname := path; search := "" |}.

Definition Request_of (path : string) : Request :=
  {| method := "GET"; url := self_url path; mode := "cors";
     destination := ""; req_headers := [] |}.

Definition fetch (request : Request) : SW Settled :=
  fun w => (networkFetch request, w, [NetworkFetch request]).

(** *** install *)

(** [cache.addAll(paths)] requests every path and stores all the
    responses or none: one rejected request, or one response that
    [addAll] does not take, rejects the whole call. *)
Fixpoint fetchAll (reqs : list Request) : SW (option (list (URL * Response))) :=
  match reqs with
  | [] => ret (Some [])
  | q :: rest =>
      r <- fetch q ;;
      rs <- fetchAll rest ;;
      ret match r, rs with
          | Fulfilled res, Some es =>
              if addAll_accepts res then Some ((url q, res) :: es) else None
          | _, _ => None
          end
  end.

Fixpoint putAll (n : string) (es : list (URL * Response)) : SW unit :=
  match es with
  | [] => ret tt
  | (k, v) :: rest => cache_put_in n k v ;; putAll n rest
  end.

Definition cache_addAll (n : string) (paths : list string) : SW bool :=
  es <- fetchAll (map Request_of paths) ;;
  match es with
  | Some es => putAll n es ;; ret true
  | None => ret false
  end.

(** The listener's promise chain; [true] when it fulfils. *)
Definition onInstall : SW bool :=
  caches_open STATIC_CACHE ;;
  added <- cache_addAll STATIC_CACHE STATIC_ASSETS ;;
  if added then skipWaiting ;; ret true else ret false.

(** *** activate *)

Fixpoint deleteAll (keys : list string) : SW unit :=
  match keys with
  | [] => ret tt
  | k :: rest => caches_delete k ;; deleteAll rest
  end.

Definition onActivate : SW unit :=
  keys <- caches_keys ;;
  deleteAll (filter (fun key => negb (key =? STATIC_CACHE) && negb (key =? RUNTIME_CACHE))
                    keys) ;;
  clients_claim.

(** *** fetch *)

Definition respondWith (p : SW (option Response)) : SW Outcome :=
  x <- p ;; ret (RespondWith x).

(** [caches.open(RUNTIME_CACHE).then((cache) => cache.put(request, copy))],
    not awaited. *)
Definition put_copy (request : Request) (res : Response) : SW unit :=
  started (CachesOpen RUNTIME_CACHE) ;;
  detach {| target := RUNTIME_CACHE; key := url request; copy := res |}.

(** [request.headers.get('accept') &&
     request.headers.get('accept').includes('text/html')] *)
Definition accepts_html (request : Request) : bool :=
  match headers_get "accept" (req_headers request) with
  | None => false
  | Some a => negb (a =? "") && includes a "text/html"
  end.

Definition onFetch (request : Request) : SW Outcome :=
  if negb (method request =? "GET") then ret NotIntercepted
  else if mode request =? "navigate" then
    respondWith (
      r <- fetch request ;;
      match r with
      | Fulfilled res =>
          put_copy request res ;;
          ret (Some res)
      | Rejected =>
          cached <- caches_match (url request) ;;
          match cached with
          | Some c => ret (Some c)
          | None => caches_match (self_url "/offline.html")
          end
      end)
  else if startsWith (pathname (url request)) "/api/" then
    respondWith (
      r <- fetch request ;;
      match r with
      | Fulfilled res =>
          put_copy request res ;;
          ret (Some res)
      | Rejected => caches_match (url request)
      end)
  else
    respondWith (
      cached <- caches_match (url request) ;;
      match cached with
      | Some c => ret (Some c)
      | None =>
          r <- fetch request ;;
          match r with
          | Fulfilled res =>
              (if (status res =? 200)%Z && negb (type res =? "opaque")
               then put_copy request res
               else ret tt) ;;
              ret (Some res)
          | Rejected =>
              if destination request =? "image" then
                caches_match (self_url "/icons/icon-192x192.png")
              else if accepts_html request then
                caches_match (self_url "/offline.html")
              else
                ret (Some (Response_new None 504 "Gateway Timeout"))
          end
      end).

(** One request from the event to quiescence: the listener runs, then
    the write it started completes. *)
Definition handleFetch (request : Request) : SW Outcome :=
  o <- onFetch request ;;
  settle ;;
  ret o.

(** What the page that issued the request gets: the browser's own
    fetch when the worker did not intercept, the worker's response
    when it resolved with one, and a network error when it resolved
    with [undefined]. *)
Definition delivered (request : Request) (o : Outcome) : Settled :=
  match o with
  | NotIntercepted => networkFetch request
  | RespondWith (Some res) => Fulfilled res
  | RespondWith None => Rejected
  end.

(** *** message *)

Definition onMessage (data : option MessageData) : SW unit :=
  match data with
  | Some d => if msg_type d =? "SKIP_WAITING" then skipWaiting else ret tt
  | None => ret tt
  end.

End Worker.

(** The three request classes of the [fetch] listener, in the order it
    tests them. *)
Definition isGET (request : Request) : bool := method request =? "GET".
Definition isNavigation (request : Request) : bool :=
  isGET request && (mode request =? "navigate").
Definition isApi (request : Request) : bool :=
  isGET request && negb (mode request =? "navigate")
  && startsWith (pathname (url request)) "/api/".
Definition isStatic (request : Request) : bool :=
  isGET request && negb (mode request =? "navigate")
  && negb (startsWith (pathname (url request)) "/api/").

(** The response the static strategy makes up when everything failed. *)
Definition gatewayTimeout : Response := Response_new None 504 "Gateway Timeout".

(** A generation holds a response under a key. *)
Definition stored_in (cs : CacheStorage) (k : URL) (r : Response) : Prop :=
  exists n c, In (n, c) cs /\ cache_match k c = Some r.

(** No write is in flight. *)
Definition quiescent (w : World) : Prop := detached w = [].

(** What the generation called [n] holds under a key: nothing when the
    generation is absent or has no entry for the key. *)
Definition lookup_in (n : string) (k : URL) (cs : CacheStorage) : option Response :=
  match storage_get n cs with
  | Some c => cache_match k c
  | None => None
  end.

(** The requests a log sends to the network, in the order it sends them. *)
Fixpoint fetches (t : list Effect) : list Request :=
  match t with
  | [] => []
  | NetworkFetch q :: rest => q :: fetches rest
  | _ :: rest => fetches rest
  end.

(** The network fulfils a request with a response that [cache.addAll]
    takes. *)
Definition fetched_ok (net : Request -> Settled) (q : Request) : bool :=
  match net q with
  | Fulfilled res => addAll_accepts res
  | Rejected => false
  end.

(** One step of [putAll] on the store. *)
Definition put_entry (n : string) (cs : CacheStorage) (e : URL * Response)
  : CacheStorage :=
  storage_put n (fst e) (snd e) cs.

(** The static generation holds a response under every path of the
    manifest. *)
Definition holds_manifest (o : string) (cs : CacheStorage) : Prop :=
  forall path, In path STATIC_ASSETS ->
    exists r, lookup_in STATIC_CACHE (self_url o path) cs = Some r.

(* ------------------------------------------------------------------ *)
(** ** Concrete requests, responses and stores *)

Module Ex.

Definition site : string := "https://portfolio.example".

Definition at_path (path : string) : URL :=
  {| origin := site; pathname := path; search := "" |}.

(** What the site serves under a path: the body tells the documents
    apart. *)
Definition asset (path : string) : Response :=
  {| status := 200; statusText := "OK"; type := "basic"; headers := [];
     body := Some path |}.

Definition missing : Response :=
  {| status := 404; statusText := "Not Found"; type := "basic";
     headers := []; body := Some "not found" |}.

Definition opaque : Response :=
  {| status := 0; statusText := ""; type := "opaque"; headers := []; body := None |}.

(** A response that varies on every header, and a partial response. *)
Definition varying : Response :=
  {| status := 200; statusText := "OK"; type := "basic";
     headers := [("content-type", "font/woff2"); ("vary", "*")]; body := Some "wOF2" |}.

Definition ranged : Response :=
  {| status := 206; statusText := "Partial Content"; type := "basic";
     headers := [("content-range", "bytes 0-3/64")]; body := Some "part" |}.

Definition network_varying (_ : Request) : Settled := Fulfilled varying.
Definition network_ranged (_ : Request) : Settled := Fulfilled ranged.

Definition network_down (_ : Request) : Settled := Rejected.
Definition network_up (request : Request) : Settled :=
  Fulfilled (asset (pathname (url request))).
Definition network_404 (_ : Request) : Settled := Fulfilled missing.
Definition network_opaque (_ : Request) : Settled := Fulfilled opaque.

Definition api_users : Request :=
  {| method := "GET"; url := at_path "/api/users"; mode := "cors";
     destination := ""; req_headers := [("accept", "application/json")] |}.

Definition post_users : Request :=
  {| method := "POST"; url := at_path "/api/users"; mode := "cors";
     destination := ""; req_headers := [] |}.

Definition home : Request :=
  {| method := "GET"; url := at_path "/"; mode := "navigate";
     destination := "document"; req_headers := [("accept", "text/html,*/*")] |}.

Definition about : Request :=
  {| method := "GET"; url := at_path "/about.html"; mode := "navigate";
     destination := "document"; req_headers := [("accept", "text/html,*/*")] |}.

Definition font : Request :=
  {| method := "GET"; url := at_path "/fonts/body.woff2"; mode := "cors";
     destination := "font"; req_headers := [("accept", "*/*")] |}.

Definition photo : Request :=
  {| method := "GET"; url := at_path "/img/portrait.jpg"; mode := "no-cors";
     destination := "image"; req_headers := [("accept", "image/avif,image/webp,*/*")] |}.

Definition partial : Request :=
  {| method := "GET"; url := at_path "/partials/projects.html"; mode := "cors";
     destination := ""; req_headers := [("accept", "text/html")] |}.

Definition stylesheet : Request :=
  {| method := "GET"; url := at_path "/styles/main.css"; mode := "no-cors";
     destination := "style"; req_headers := [("accept", "text/css,*/*;q=0.1")] |}.

(** The store before the worker was ever installed, and after its
    install listener ran with the network up. *)
Definition fresh : World := {| caches := []; detached := [] |}.
Definition installed : World := world (onInstall site network_up fresh).

(** The installed store after the API was called once with the network
    up. *)
Definition visited : World := world (handleFetch site network_up api_users installed).

(** A store that still has the static generation of an earlier version
    of the worker, created before the current one. *)
Definition upgraded : World :=
  {| caches := [ ("static-v0.9.0", [(at_path "/", missing)]);
                 (STATIC_CACHE, [(at_path "/", asset "/")]) ];
     detached := [] |}.

End Ex.

(* ------------------------------------------------------------------ *)
(** ** Facts about the cache store *)

Lemma URL_eqb_refl (k : URL) : URL_eqb k k = true.
Proof.
  unfold URL_eqb. now rewrite !String.eqb_refl.
Qed.

Lemma URL_eqb_eq (a b : URL) : URL_eqb a b = true <-> a = b.
Proof.
  split.
  - unfold URL_eqb. intros H.
    apply andb_prop in H as [H Hs]. apply andb_prop in H as [Ho Hp].
    apply String.eqb_eq in Ho, Hp, Hs.
    destruct a, b; simpl in *. congruence.
  - intros ->. apply URL_eqb_refl.
Qed.

Lemma cache_match_put (k : URL) (v : Response) (c : Cache) :
  cache_match k (cache_put k v c) = Some v.
Proof.
  unfold cache_match, cache_put.
  induction c as [|[k' r'] c IH]; simpl.
  - now rewrite URL_eqb_refl.
  - destruct (URL_eqb k' k) eqn:E; simpl; [exact IH|].
    now rewrite E.
Qed.

(** [caches.match] misses exactly when no generation holds the key. *)
Lemma storage_match_None_iff (k : URL) (cs : CacheStorage) :
  storage_match k cs = None <-> forall r, ~ stored_in cs k r.
Proof.
  induction cs as [|[n c] cs IH]; simpl.
  - split; [|reflexivity]. intros _ r (n & c & [] & _).
  - destruct (cache_match k c) as [r0|] eqn:M.
    + split; [discriminate|]. intros H. exfalso.
      apply (H r0). exists n, c. split; [now left|exact M].
    + rewrite IH. split.
      * intros H r (n' & c' & [E|Hin] & Hm).
        -- injection E as <- <-. congruence.
        -- apply (H r). now exists n', c'.
      * intros H r (n' & c' & Hin & Hm). apply (H r).
        exists n', c'. split; [now right|exact Hm].
Qed.

(** What [caches.match] returns is held by some generation. *)
Lemma storage_match_stored (k : URL) (cs : CacheStorage) (r : Response) :
  storage_match k cs = Some r -> stored_in cs k r.
Proof.
  induction cs as [|[n c] cs IH]; simpl; [discriminate|].
  destruct (cache_match k c) as [r0|] eqn:M.
  - intros [= <-]. exists n, c. split; [now left|exact M].
  - intros H. destruct (IH H) as (n' & c' & Hin & Hm).
    exists n', c'. split; [now right|exact Hm].
Qed.

Lemma storage_has_open (n : string) (cs : CacheStorage) :
  storage_has n (storage_open n cs) = true.
Proof.
  unfold storage_open. destruct (storage_has n cs) eqn:E; [exact E|].
  unfold storage_has. rewrite existsb_app. simpl.
  rewrite String.eqb_refl. now rewrite orb_true_r.
Qed.

Lemma storage_match_app (k : URL) (cs ds : CacheStorage) :
  storage_match k (cs ++ ds) =
  match storage_match k cs with
  | Some r => Some r
  | None => storage_match k ds
  end.
Proof.
  induction cs as [|[n c] cs IH]; simpl; [reflexivity|].
  destruct (cache_match k c); [reflexivity|exact IH].
Qed.

Lemma storage_match_open (n : string) (k : URL) (cs : CacheStorage) :
  storage_match k (storage_open n cs) = storage_match k cs.
Proof.
  unfold storage_open. destruct (storage_has n cs); [reflexivity|].
  rewrite storage_match_app. simpl. now destruct (storage_match k cs).
Qed.

(** A write into a generation that exists turns a miss into a hit. *)
Lemma storage_match_put_miss (n : string) (k : URL) (v : Response) (cs : CacheStorage) :
  storage_has n cs = true ->
  storage_match k cs = None ->
  storage_match k (storage_put n k v cs) = Some v.
Proof.
  unfold storage_has, storage_put.
  induction cs as [|[m c] cs IH]; simpl; [discriminate|].
  destruct (cache_match k c) eqn:M; [discriminate|].
  destruct (m =? n) eqn:E; simpl.
  - intros _ _. now rewrite cache_match_put.
  - intros Hh Hm. rewrite M. now apply IH.
Qed.

Lemma storage_get_put_same (n : string) (k : URL) (v : Response) (cs : CacheStorage) :
  storage_has n cs = true ->
  exists c, storage_get n (storage_put n k v cs) = Some c /\ cache_match k c = Some v.
Proof.
  unfold storage_has, storage_put, storage_get.
  induction cs as [|[m c] cs IH]; simpl; [discriminate|].
  destruct (m =? n) eqn:E; simpl.
  - intros _. rewrite E. simpl. eexists. split; [reflexivity|apply cache_match_put].
  - intros Hh. rewrite E. now apply IH.
Qed.

Lemma storage_get_put_other (m n : string) (k : URL) (v : Response) (cs : CacheStorage) :
  m <> n -> storage_get m (storage_put n k v cs) = storage_get m cs.
Proof.
  intros Hmn. unfold storage_put, storage_get.
  induction cs as [|[m' c] cs IH]; simpl; [reflexivity|].
  destruct (m' =? n) eqn:E; simpl.
  - apply String.eqb_eq in E. subst m'.
    destruct (n =? m) eqn:E'; [|exact IH].
    apply String.eqb_eq in E'. congruence.
  - destruct (m' =? m); [reflexivity|exact IH].
Qed.

Lemma storage_get_open_other (m n : string) (cs : CacheStorage) :
  m <> n -> storage_get m (storage_open n cs) = storage_get m cs.
Proof.
  intros Hmn. unfold storage_open. destruct (storage_has n cs); [reflexivity|].
  unfold storage_get. induction cs as [|[m' c] cs IH]; simpl.
  - destruct (n =? m) eqn:E; [|reflexivity].
    apply String.eqb_eq in E. congruence.
  - destruct (m' =? m); [reflexivity|exact IH].
Qed.

Lemma STATIC_not_RUNTIME : STATIC_CACHE <> RUNTIME_CACHE.
Proof. discriminate. Qed.

(* ------------------------------------------------------------------ *)
(** ** The request classes *)

Lemma isNavigation_inv (request : Request) :
  isNavigation request = true ->
  (method request =? "GET") = true /\ (mode request =? "navigate") = true.
Proof.
  unfold isNavigation, isGET. intros H. now apply andb_prop in H.
Qed.

Lemma isApi_inv (request : Request) :
  isApi request = true ->
  (method request =? "GET") = true /\ (mode request =? "navigate") = false
  /\ startsWith (pathname (url request)) "/api/" = true.
Proof.
  unfold isApi, isGET. intros H.
  apply andb_prop in H as [H Hp]. apply andb_prop in H as [Hg Hn].
  apply negb_true_iff in Hn. auto.
Qed.

Lemma isStatic_inv (request : Request) :
  isStatic request = true ->
  (method request =? "GET") = true /\ (mode request =? "navigate") = false
  /\ startsWith (pathname (url request)) "/api/" = false.
Proof.
  unfold isStatic, isGET. intros H.
  apply andb_prop in H as [H Hp]. apply andb_prop in H as [Hg Hn].
  apply negb_true_iff in Hn, Hp. auto.
Qed.

(** Every [GET] request is in exactly one class. *)
Lemma classes_partition (request : Request) :
  isGET request = true ->
  (isNavigation request = true /\ isApi request = false /\ isStatic request = false)
  \/ (isNavigation request = false /\ isApi request = true /\ isStatic request = false)
  \/ (isNavigation request = false /\ isApi request = false /\ isStatic request = true).
Proof.
  unfold isNavigation, isApi, isStatic. intros ->. simpl.
  destruct (mode request =? "navigate"); simpl; [now left|right].
  destruct (startsWith (pathname (url request)) "/api/"); simpl; auto.
Qed.

(** Unfold one run of the [fetch] listener on a request of a known class. *)
Ltac unfold_run :=
  unfold handleFetch, onFetch, respondWith, put_copy, started, fetch, caches_match,
         detach, settle, bind, ret, result, world, effects.

(** Run the listener when the tests it makes are known from hypotheses. *)
Ltac run_known :=
  unfold_run;
  repeat (cbn; match goal with H : ?l = _ |- context [?l] => rewrite H end);
  cbn; try reflexivity.

Ltac class_case H :=
  first [ apply isNavigation_inv in H as [? ?]
        | apply isApi_inv in H as (? & ? & ?)
        | apply isStatic_inv in H as (? & ? & ?) ].

(* ------------------------------------------------------------------ *)
(** ** Writes in flight *)

Lemma run_write_run (wr : Write) (w : World) :
  run_write wr w
  = (tt, {| caches := written wr (caches w); detached := detached w |},
     [CachePut (target wr) (key wr) (copy wr)]).
Proof.
  unfold run_write, opened, cache_put_in, bind, written. simpl.
  now destruct (put_refused (copy wr)).
Qed.

Lemma run_writes_effects (ws : list Write) (w : World) (e : Effect) :
  In e (effects (run_writes ws w)) ->
  exists wr, In wr ws
    /\ (e = CachesOpen (target wr) \/ e = CachePut (target wr) (key wr) (copy wr)).
Proof.
  revert w. induction ws as [|wr ws IH]; intros w; simpl.
  - intros [].
  - unfold bind, effects in *. rewrite run_write_run.
    specialize (IH {| caches := written wr (caches w); detached := detached w |}).
    destruct (run_writes ws _) as [[u w'] t]. simpl in *.
    intros [<-|Hin].
    + exists wr. auto.
    + destruct (IH Hin) as (wr' & Hw & He). exists wr'. auto.
Qed.

Lemma run_writes_detached (ws : list Write) (w : World) :
  detached (world (run_writes ws w)) = detached w.
Proof.
  revert w. induction ws as [|wr ws IH]; intros w; simpl; [reflexivity|].
  unfold bind, world in *. rewrite run_write_run.
  specialize (IH {| caches := written wr (caches w); detached := detached w |}).
  destruct (run_writes ws _) as [[u w'] t]. exact IH.
Qed.

(** Writes leave the generations they do not target as they were. *)
Lemma run_writes_other (m : string) (ws : list Write) (w : World) :
  Forall (fun wr => target wr <> m) ws ->
  storage_get m (caches (world (run_writes ws w))) = storage_get m (caches w).
Proof.
  revert w. induction ws as [|wr ws IH]; intros w Hall; simpl; [reflexivity|].
  inversion Hall as [|? ? Hwr Hrest]; subst.
  unfold bind, world in *. rewrite run_write_run.
  specialize (IH {| caches := written wr (caches w); detached := detached w |} Hrest).
  destruct (run_writes ws _) as [[u w'] t]. simpl in *. rewrite IH.
  unfold written. destruct (put_refused (copy wr)).
  - rewrite storage_get_open_other; congruence.
  - rewrite storage_get_put_other, storage_get_open_other; congruence.
Qed.

(** A handled request whose listener started no write, and one whose
    listener started a write. *)
Lemma handleFetch_no_write (o : string) (net : Request -> Settled) (request : Request)
      (w : World) (out : Outcome) (t : list Effect) :
  quiescent w ->
  onFetch o net request w = (out, w, t) ->
  handleFetch o net request w = (out, w, t).
Proof.
  unfold quiescent. intros Hq E. unfold handleFetch, bind, ret. rewrite E.
  unfold settle. rewrite Hq. destruct w as [cs ds]. simpl in *. subst ds.
  now rewrite app_nil_r.
Qed.

Lemma handleFetch_one_write (o : string) (net : Request -> Settled) (request : Request)
      (w : World) (out : Outcome) (t : list Effect) (wr : Write) :
  quiescent w ->
  onFetch o net request w
  = (out, {| caches := caches w; detached := detached w ++ [wr] |}, t) ->
  handleFetch o net request w
  = (out, {| caches := written wr (caches w); detached := [] |},
     t ++ [CachePut (target wr) (key wr) (copy wr)]).
Proof.
  unfold quiescent. intros Hq E. unfold handleFetch, bind, ret. rewrite E.
  unfold settle. cbn [detached caches]. rewrite Hq. cbn [app run_writes].
  unfold bind. rewrite run_write_run. reflexivity.
Qed.

(* ------------------------------------------------------------------ *)
(** ** Install and activation *)

(** Take apart the membership of an effect in a concatenated log. *)
Ltac split_in H :=
  repeat match type of H with
         | _ \/ _ => destruct H as [H|H]
         | In _ (_ ++ _) => apply in_app_or in H
         | In _ (_ :: _) => simpl in H
         | In _ [] => destruct H
         | False => destruct H
         | ?a = ?b => discriminate H
         end.

Lemma fetchAll_effects (net : Request -> Settled) (reqs : list Request)
      (w : World) (e : Effect) :
  In e (effects (fetchAll net reqs w)) -> exists q, e = NetworkFetch q.
Proof.
  revert w. induction reqs as [|q reqs IH]; intros w; simpl; [intros []|].
  unfold fetch, bind, ret, effects in *. simpl.
  specialize (IH w). destruct (fetchAll net reqs w) as [[rs w1] t1]. simpl in *.
  rewrite app_nil_r. intros [<-|Hin]; eauto.
Qed.

Lemma putAll_effects (n : string) (es : list (URL * Response)) (w : World) (e : Effect) :
  In e (effects (putAll n es w)) -> exists k v, e = CachePut n k v.
Proof.
  revert w. induction es as [|[k v] es IH]; intros w; simpl; [intros []|].
  unfold cache_put_in, bind, effects in *. simpl.
  specialize (IH {| caches := if put_refused v then caches w
                              else storage_put n k v (caches w);
                    detached := detached w |}).
  destruct (putAll n es _) as [[u w1] t1]. simpl in *.
  intros [<-|Hin]; eauto.
Qed.

(** The install listener puts into the static generation only. *)
Lemma onInstall_puts (o : string) (net : Request -> Settled) (w : World)
      (n : string) (k : URL) (v : Response) :
  In (CachePut n k v) (effects (onInstall o net w)) -> n = STATIC_CACHE.
Proof.
  unfold onInstall, cache_addAll, caches_open, skipWaiting, bind, ret, effects.
  set (w1 := {| caches := storage_open STATIC_CACHE (caches w); detached := detached w |}).
  pose proof (fetchAll_effects net (map (Request_of o) STATIC_ASSETS) w1) as Hf.
  unfold effects in Hf.
  destruct (fetchAll net _ w1) as [[[es|] w2] t2]; simpl in *.
  - pose proof (putAll_effects STATIC_CACHE es w2) as Hp. unfold effects in Hp.
    destruct (putAll STATIC_CACHE es w2) as [[u w3] t3]. simpl in *.
    intros Hin. split_in Hin.
    + destruct (Hf _ Hin). discriminate.
    + destruct (Hp _ Hin) as (k' & v' & E). now injection E.
  - intros Hin. split_in Hin. destruct (Hf _ Hin). discriminate.
Qed.

(** The generations a run of [caches.delete] over [keys] leaves. *)
Lemma deleteAll_run (keys : list string) (w : World) :
  deleteAll keys w
  = (tt,
     {| caches := filter (fun e => negb (existsb (fun k => fst e =? k) keys)) (caches w);
        detached := detached w |},
     map CachesDelete keys).
Proof.
  revert w. induction keys as [|k keys IH]; intros [cs ds]; simpl.
  - unfold ret. f_equal. f_equal. f_equal.
    induction cs as [|e cs IHcs]; simpl; congruence.
  - unfold bind, caches_delete. rewrite IH. simpl. f_equal. f_equal. f_equal.
    unfold storage_delete.
    induction cs as [|e cs IHcs]; simpl; [reflexivity|].
    destruct (fst e =? k); simpl; [exact IHcs|].
    destruct (existsb _ keys); simpl; congruence.
Qed.

Definition is_current (n : string) : bool :=
  (n =? STATIC_CACHE) || (n =? RUNTIME_CACHE).

Lemma existsb_stale (names : list string) (n : string) :
  In n names ->
  existsb (fun k => n =? k)
          (filter (fun key => negb (key =? STATIC_CACHE) && negb (key =? RUNTIME_CACHE)) names)
  = negb (is_current n).
Proof.
  intros Hin. unfold is_current.
  destruct (negb ((n =? STATIC_CACHE) || (n =? RUNTIME_CACHE))) eqn:E.
  - apply existsb_exists. exists n. rewrite String.eqb_refl. split; [|reflexivity].
    apply filter_In. split; [exact Hin|]. now rewrite <- negb_orb.
  - apply not_true_is_false. intros H.
    apply existsb_exists in H as (k & Hk & Heq).
    apply String.eqb_eq in Heq. subst k.
    apply filter_In in Hk as [_ Hk]. rewrite <- negb_orb in Hk. congruence.
Qed.

(** One activation: the keys are listed, every key of another name than
    the two current ones is deleted, the clients are claimed. *)
Lemma onActivate_run (w : World) :
  onActivate w
  = (tt,
     {| caches := filter (fun e => is_current (fst e)) (caches w);
        detached := detached w |},
     CachesKeys
       :: map CachesDelete
            (filter (fun key => negb (key =? STATIC_CACHE) && negb (key =? RUNTIME_CACHE))
                    (storage_keys (caches w)))
       ++ [ClientsClaim]).
Proof.
  unfold onActivate, bind, caches_keys, clients_claim.
  rewrite deleteAll_run. simpl. f_equal. f_equal. f_equal.
  apply filter_ext_in. intros e He.
  rewrite existsb_stale; [apply negb_involutive|].
  unfold storage_keys. now apply in_map.
Qed.

Lemma storage_keys_filter (p : string -> bool) (cs : CacheStorage) :
  storage_keys (filter (fun e => p (fst e)) cs) = filter p (storage_keys cs).
Proof.
  unfold storage_keys. induction cs as [|e cs IH]; simpl; [reflexivity|].
  destruct (p (fst e)); simpl; congruence.
Qed.

Lemma storage_get_filter_kept (p : string -> bool) (n : string) (cs : CacheStorage) :
  p n = true ->
  storage_get n (filter (fun e => p (fst e)) cs) = storage_get n cs.
Proof.
  intros Hp. unfold storage_get.
  induction cs as [|e cs IH]; simpl; [reflexivity|].
  destruct (p (fst e)) eqn:E; simpl.
  - destruct (fst e =? n); [reflexivity|exact IH].
  - destruct (fst e =? n) eqn:E'; [|exact IH].
    apply String.eqb_eq in E'. congruence.
Qed.

(** C3 (amended).  Activation lists the generation names, deletes every
    one that is neither the current static nor the current runtime
    name, and creates nothing: afterwards the names in the store are
    those of the two current names that were there before, and the
    generations kept have their contents unchanged. *)
Theorem activate_keeps_only_current_generations (w : World) :
  effects (onActivate w)
    = CachesKeys
        :: map CachesDelete
             (filter (fun key => negb (key =? STATIC_CACHE) && negb (key =? RUNTIME_CACHE))
                     (storage_keys (caches w)))
        ++ [ClientsClaim]
  /\ (forall n, In n (storage_keys (caches (world (onActivate w))))
                <-> In n (storage_keys (caches w))
                    /\ (n = STATIC_CACHE \/ n = RUNTIME_CACHE))
  /\ storage_get STATIC_CACHE (caches (world (onActivate w)))
     = storage_get STATIC_CACHE (caches w)
  /\ storage_get RUNTIME_CACHE (caches (world (onActivate w)))
     = storage_get RUNTIME_CACHE (caches w).
Proof.
  rewrite onActivate_run. cbn [effects world snd fst caches].
  split; [reflexivity|]. split; [|split].
  - intros n. rewrite storage_keys_filter, filter_In. unfold is_current.
    rewrite orb_true_iff, !String.eqb_eq. reflexivity.
  - apply storage_get_filter_kept. unfold is_current. now rewrite String.eqb_refl.
  - apply storage_get_filter_kept. unfold is_current.
    rewrite String.eqb_refl. apply orb_true_r.
Qed.

Section Routing.

Variable self_origin : string.
Variable networkFetch : Request -> Settled.

Local Abbreviation listen := (onFetch self_origin networkFetch).
Local Abbreviation handle := (handleFetch self_origin networkFetch).
Local Abbreviation deliver := (delivered networkFetch).
Local Abbreviation offline := (self_url self_origin "/offline.html").
Local Abbreviation placeholder := (self_url self_origin "/icons/icon-192x192.png").

(** Waiting for the writes does not change what the listener answered. *)
Lemma handleFetch_result (request : Request) (w : World) :
  result (handle request w) = result (listen request w).
Proof.
  unfold handleFetch, bind, ret, result.
  destruct (listen request w) as [[o w1] t1]. simpl.
  destruct (settle w1) as [[u w2] t2]. reflexivity.
Qed.

Lemma handleFetch_quiescent (request : Request) (w : World) :
  quiescent (world (handle request w)).
Proof.
  unfold handleFetch, bind, ret, world, quiescent.
  destruct (listen request w) as [[o w1] t1]. simpl.
  pose proof (run_writes_detached (detached w1)
                {| caches := caches w1; detached := [] |}) as H.
  unfold settle, world in *.
  destruct (run_writes _ _) as [[u w2] t2]. exact H.
Qed.

(** The listener itself touches no generation: it only reads the
    store, and the writes it starts all go to the runtime generation. *)
Lemma onFetch_world (request : Request) (w : World) :
  caches (world (listen request w)) = caches w
  /\ exists ws, detached (world (listen request w)) = detached w ++ ws
       /\ Forall (fun wr => target wr = RUNTIME_CACHE) ws.
Proof.
  unfold_run.
  repeat match goal with
         | |- context [if ?b then _ else _] => destruct b
         | |- context [match networkFetch ?q with _ => _ end] =>
             destruct (networkFetch q)
         | |- context [match storage_match ?k ?cs with _ => _ end] =>
             destruct (storage_match k cs)
         end; simpl; split; try reflexivity;
    first [ exists []; rewrite app_nil_r; split; [reflexivity|constructor]
          | eexists; split; [reflexivity|repeat constructor] ].
Qed.

Lemma onFetch_effects (request : Request) (w : World) (e : Effect) :
  In e (effects (listen request w)) ->
  (exists q, e = NetworkFetch q) \/ (exists k, e = CachesMatch k)
  \/ e = CachesOpen RUNTIME_CACHE.
Proof.
  unfold_run.
  repeat match goal with
         | |- context [if ?b then _ else _] => destruct b
         | |- context [match networkFetch ?q with _ => _ end] =>
             destruct (networkFetch q)
         | |- context [match storage_match ?k ?cs with _ => _ end] =>
             destruct (storage_match k cs)
         end; simpl; intuition (subst; eauto).
Qed.

(** C1.  An API request ([GET], not a navigation, path under
    ['/api/']) whose network fetch is rejected and for which
    [caches.match] finds nothing: the listener makes the fetch and the
    one lookup, leaves the store alone and resolves with no response,
    so the page gets the failure of the fetch, and no response of any
    kind (no 504, no offline document). *)
Theorem api_failure_without_cache_is_propagated (request : Request) (w : World) :
  isApi request = true ->
  networkFetch request = Rejected ->
  storage_match (url request) (caches w) = None ->
  listen request w
    = (RespondWith None, w, [NetworkFetch request; CachesMatch (url request)])
  /\ deliver request (result (handle request w)) = networkFetch request
  /\ forall res, deliver request (result (handle request w)) <> Fulfilled res.
Proof.
  intros Hc Hnet Hmiss. class_case Hc.
  assert (E : listen request w
              = (RespondWith None, w, [NetworkFetch request; CachesMatch (url request)])).
  { run_known. }
  split; [exact E|].
  rewrite handleFetch_result, E. simpl. rewrite Hnet.
  split; [reflexivity|discriminate].
Qed.

(** The fast path of the static strategy. *)
Lemma onFetch_static_hit (net : Request -> Settled) (request : Request) (w : World)
      (c : Response) :
  isStatic request = true ->
  storage_match (url request) (caches w) = Some c ->
  onFetch self_origin net request w
    = (RespondWith (Some c), w, [CachesMatch (url request)]).
Proof.
  intros Hc Hhit. class_case Hc. run_known.
Qed.

(** C5.  A static request ([GET], neither a navigation nor under
    ['/api/']) that [caches.match] finds: the stored response is the
    answer, the lookup is the only call the listener makes, and no
    network fetch happens while the request is handled. *)
Theorem static_hit_makes_no_network_call (request : Request) (w : World) (c : Response) :
  isStatic request = true ->
  storage_match (url request) (caches w) = Some c ->
  listen request w = (RespondWith (Some c), w, [CachesMatch (url request)])
  /\ forall q, ~ In (NetworkFetch q) (effects (handle request w)).
Proof.
  intros Hc Hhit.
  pose proof (onFetch_static_hit networkFetch request w c Hc Hhit) as E.
  split; [exact E|].
  intros q. unfold handleFetch, bind, ret, effects.
  rewrite E. unfold settle.
  destruct (run_writes _ _) as [[u w2] t2] eqn:R. simpl.
  intros [Hin|Hin]; [discriminate|].
  rewrite app_nil_r in Hin.
  pose proof (run_writes_effects (detached w)
                {| caches := caches w; detached := [] |} (NetworkFetch q)) as Hw.
  rewrite R in Hw. destruct (Hw Hin) as (wr & _ & [?|?]); discriminate.
Qed.

(** C8.  A request whose method is not [GET]: the listener returns
    at once, with no call to the cache API (no lookup, no write) and
    the store as it was; the request is not intercepted, and the page
    gets what the network answers to that very request. *)
Theorem non_GET_bypasses_the_cache (request : Request) (w : World) :
  isGET request = false ->
  listen request w = (NotIntercepted, w, [])
  /\ deliver request (result (listen request w)) = networkFetch request
  /\ (quiescent w -> handle request w = (NotIntercepted, w, [])).
Proof.
  unfold isGET. intros Hm.
  assert (E : listen request w = (NotIntercepted, w, [])).
  { unfold_run. now rewrite Hm. }
  split; [exact E|]. split; [now rewrite E|].
  unfold quiescent. intros Hq.
  unfold handleFetch, bind, ret. rewrite E.
  unfold settle. rewrite Hq. simpl. destruct w; simpl in *. now subst.
Qed.

(** C6.  A navigation request whose network fetch is rejected: when
    [caches.match] finds a response for the request (it does as soon
    as some generation holds one), that stored response is the answer
    as it is; when it finds none, the answer is what [caches.match]
    finds for ['/offline.html'], so the offline document whenever the
    store holds it. *)
Theorem navigation_failure_falls_back (request : Request) (w : World) :
  isNavigation request = true ->
  networkFetch request = Rejected ->
  (forall c, storage_match (url request) (caches w) = Some c ->
     listen request w
       = (RespondWith (Some c), w, [NetworkFetch request; CachesMatch (url request)])
     /\ stored_in (caches w) (url request) c)
  /\ ((exists r, stored_in (caches w) (url request) r) ->
      exists c, storage_match (url request) (caches w) = Some c)
  /\ (storage_match (url request) (caches w) = None ->
      listen request w
        = (RespondWith (storage_match offline (caches w)), w,
           [NetworkFetch request; CachesMatch (url request); CachesMatch offline])
      /\ forall d, storage_match offline (caches w) = Some d ->
           deliver request (result (handle request w)) = Fulfilled d).
Proof.
  intros Hc Hnet. class_case Hc. repeat split.
  - run_known.
  - now apply storage_match_stored.
  - intros [r Hr]. destruct (storage_match (url request) (caches w)) as [c|] eqn:M.
    + now exists c.
    + exfalso. exact (proj1 (storage_match_None_iff _ _) M r Hr).
  - run_known.
  - intros d Hd. rewrite handleFetch_result.
    assert (E : result (listen request w) = RespondWith (storage_match offline (caches w)))
      by run_known.
    rewrite E, Hd. reflexivity.
Qed.

(** The static strategy reaches the network only after a miss. *)
Lemma static_fetch_after_miss (request : Request) (w : World) :
  isStatic request = true ->
  In (NetworkFetch request) (effects (listen request w)) ->
  storage_match (url request) (caches w) = None.
Proof.
  intros Hc Hin.
  destruct (storage_match (url request) (caches w)) as [c|] eqn:M; [|reflexivity].
  rewrite (onFetch_static_hit networkFetch request w c Hc M) in Hin.
  simpl in Hin. destruct Hin as [Hin|[]]. discriminate.
Qed.

(** C7.  A static request for which the listener calls the network
    and the fetch is rejected: the answer is what [caches.match]
    finds for the placeholder image when the destination is an image;
    else what it finds for ['/offline.html'] when the [accept] header
    contains [text/html]; else a made-up response with status 504
    and no body. *)
Theorem static_failure_fallback_order (request : Request) (w : World) :
  isStatic request = true ->
  In (NetworkFetch request) (effects (listen request w)) ->
  networkFetch request = Rejected ->
  result (listen request w)
    = RespondWith
        (if destination request =? "image" then storage_match placeholder (caches w)
         else if accepts_html request then storage_match offline (caches w)
         else Some gatewayTimeout)
  /\ status gatewayTimeout = 504%Z
  /\ body gatewayTimeout = None.
Proof.
  intros Hc Hin Hnet.
  pose proof (static_fetch_after_miss request w Hc Hin) as Hmiss.
  class_case Hc. split; [|split; reflexivity].
  run_known.
  destruct (destination request =? "image"); [reflexivity|].
  destruct (accepts_html request); reflexivity.
Qed.

(** What one static request does after a miss when the network
    answers. *)
Lemma handleFetch_static_fetched (request : Request) (w : World) (res : Response) :
  isStatic request = true ->
  quiescent w ->
  storage_match (url request) (caches w) = None ->
  networkFetch request = Fulfilled res ->
  handle request w
    = if (status res =? 200)%Z && negb (type res =? "opaque")
      then (RespondWith (Some res),
            {| caches := written {| target := RUNTIME_CACHE; key := url request;
                                    copy := res |} (caches w);
               detached := [] |},
            [CachesMatch (url request); NetworkFetch request;
             CachesOpen RUNTIME_CACHE; CachePut RUNTIME_CACHE (url request) res])
      else (RespondWith (Some res), w, [CachesMatch (url request); NetworkFetch request]).
Proof.
  intros Hc Hq Hmiss Hnet. class_case Hc.
  destruct ((status res =? 200)%Z && negb (type res =? "opaque")) eqn:E.
  - apply (handleFetch_one_write self_origin networkFetch request w _
             [CachesMatch (url request); NetworkFetch request; CachesOpen RUNTIME_CACHE]
             {| target := RUNTIME_CACHE; key := url request; copy := res |} Hq).
    run_known.
  - apply (handleFetch_no_write self_origin networkFetch request w _ _ Hq).
    run_known.
Qed.

(** With status 200 the cache refuses a response only for its [Vary]
    header. *)
Lemma put_refused_200 (res : Response) :
  status res = 200%Z -> put_refused res = vary_star (headers res).
Proof.
  unfold put_refused. now intros ->.
Qed.

(** C4 (amended).  A static request that misses the cache and is
    answered by the network gets the network's response, and the
    listener does not wait for a write: the store is as before when
    it answers.  When the status is 200, the type is not opaque and
    the [Vary] header is not [*], a copy is stored by the write the
    listener started: once that write has completed, [caches.match]
    finds it, and the next request for the same URL is answered with
    it from the cache, whatever the network does then.  In the other
    cases [caches.match] still finds nothing afterwards, and what it
    finds for the other URLs is as before: when the status is not 200
    or the type is opaque the store is left as it was, and a response
    with status 200 and [Vary: *] is put and refused by the cache. *)
Theorem static_network_response_cacheability
        (request : Request) (w : World) (res : Response) :
  isStatic request = true ->
  quiescent w ->
  storage_match (url request) (caches w) = None ->
  networkFetch request = Fulfilled res ->
  result (handle request w) = RespondWith (Some res)
  /\ caches (world (listen request w)) = caches w
  /\ (status res = 200%Z /\ type res <> "opaque" /\ vary_star (headers res) = false ->
      storage_match (url request) (caches (world (handle request w))) = Some res
      /\ forall net',
           onFetch self_origin net' request (world (handle request w))
           = (RespondWith (Some res), world (handle request w),
              [CachesMatch (url request)]))
  /\ (status res <> 200%Z \/ type res = "opaque" \/ vary_star (headers res) = true ->
      forall k, storage_match k (caches (world (handle request w)))
                = storage_match k (caches w))
  /\ (status res <> 200%Z \/ type res = "opaque" -> world (handle request w) = w)
  /\ (status res = 200%Z /\ type res <> "opaque" /\ vary_star (headers res) = true ->
      In (CachePut RUNTIME_CACHE (url request) res) (effects (handle request w))
      /\ caches (world (handle request w)) = storage_open RUNTIME_CACHE (caches w)).
Proof.
  intros Hc Hq Hmiss Hnet.
  assert (Hno : status res <> 200%Z \/ type res = "opaque" ->
                (status res =? 200)%Z && negb (type res =? "opaque") = false).
  { intros [Hs|Ht].
    - apply Z.eqb_neq in Hs. now rewrite Hs.
    - apply String.eqb_eq in Ht. rewrite Ht. apply andb_false_r. }
  split; [|split; [exact (proj1 (onFetch_world request w))|]].
  { rewrite (handleFetch_static_fetched request w res Hc Hq Hmiss Hnet).
    now destruct (_ && _). }
  rewrite (handleFetch_static_fetched request w res Hc Hq Hmiss Hnet).
  split; [|split; [|split]].
  - intros (Hs & Ht & Hv).
    rewrite <- (put_refused_200 res Hs) in Hv.
    apply Z.eqb_eq in Hs. apply String.eqb_neq in Ht. rewrite Hs, Ht.
    cbn [andb negb world fst snd]. unfold written. cbn [target key copy]. rewrite Hv.
    cbn [caches].
    assert (M : storage_match (url request)
                  (storage_put RUNTIME_CACHE (url request) res
                     (storage_open RUNTIME_CACHE (caches w))) = Some res).
    { apply storage_match_put_miss; [apply storage_has_open|].
      now rewrite storage_match_open. }
    split; [exact M|]. intros net'.
    now apply onFetch_static_hit.
  - intros Hn k.
    destruct ((status res =? 200)%Z && negb (type res =? "opaque")) eqn:E;
      [|reflexivity].
    destruct Hn as [Hs|[Ht|Hv]].
    + discriminate (Hno (or_introl Hs)).
    + discriminate (Hno (or_intror Ht)).
    + apply andb_prop in E as [Hs _]. apply Z.eqb_eq in Hs.
      rewrite <- (put_refused_200 res Hs) in Hv.
      cbn [world fst snd caches]. unfold written. cbn [target key copy]. rewrite Hv.
      apply storage_match_open.
  - intros Hn. now rewrite (Hno Hn).
  - intros (Hs & Ht & Hv).
    rewrite <- (put_refused_200 res Hs) in Hv.
    apply Z.eqb_eq in Hs. apply String.eqb_neq in Ht. rewrite Hs, Ht.
    cbn [andb negb world effects fst snd]. unfold written. cbn [target key copy].
    rewrite Hv. split; [|reflexivity].
    right; right; right; left; reflexivity.
Qed.

(** What one navigation or API request does when the network
    answers. *)
Lemma handleFetch_network_first (request : Request) (w : World) (res : Response) :
  isNavigation request = true \/ isApi request = true ->
  quiescent w ->
  networkFetch request = Fulfilled res ->
  handle request w
    = (RespondWith (Some res),
       {| caches := written {| target := RUNTIME_CACHE; key := url request;
                               copy := res |} (caches w);
          detached := [] |},
       [NetworkFetch request; CachesOpen RUNTIME_CACHE;
        CachePut RUNTIME_CACHE (url request) res]).
Proof.
  intros Hc Hq Hnet.
  apply (handleFetch_one_write self_origin networkFetch request w _
           [NetworkFetch request; CachesOpen RUNTIME_CACHE]
           {| target := RUNTIME_CACHE; key := url request; copy := res |} Hq).
  destruct Hc as [Hc|Hc]; class_case Hc; run_known.
Qed.

(** C9 (amended).  A navigation or API request that the network
    answers: whatever the status and the type of the response, the
    listener opens the runtime generation and [cache.put] is called
    with a copy under the request's URL, with no test by the script
    before the call.  The runtime generation then holds the copy
    unless the cache refuses it (status 206, or [Vary: *]); when it
    does, the generation is there and nothing was stored in it.  A
    static request that misses the cache and that the network answers
    is followed by the call exactly when the status is 200 and the
    type is not opaque. *)
Theorem network_first_writes_unconditionally
        (request : Request) (w : World) (res : Response) :
  quiescent w ->
  networkFetch request = Fulfilled res ->
  (isNavigation request = true \/ isApi request = true ->
     effects (handle request w)
       = [NetworkFetch request; CachesOpen RUNTIME_CACHE;
          CachePut RUNTIME_CACHE (url request) res]
     /\ (put_refused res = false ->
         exists c,
           storage_get RUNTIME_CACHE (caches (world (handle request w))) = Some c
           /\ cache_match (url request) c = Some res)
     /\ (put_refused res = true ->
         caches (world (handle request w)) = storage_open RUNTIME_CACHE (caches w)))
  /\ (isStatic request = true ->
      storage_match (url request) (caches w) = None ->
      (status res = 200%Z /\ type res <> "opaque" ->
         effects (handle request w)
           = [CachesMatch (url request); NetworkFetch request;
              CachesOpen RUNTIME_CACHE; CachePut RUNTIME_CACHE (url request) res])
      /\ (status res <> 200%Z \/ type res = "opaque" ->
         effects (handle request w)
           = [CachesMatch (url request); NetworkFetch request]
         /\ world (handle request w) = w)).
Proof.
  intros Hq Hnet. split.
  - intros Hc. rewrite (handleFetch_network_first request w res Hc Hq Hnet).
    split; [reflexivity|]. cbn [world fst snd caches]. unfold written.
    cbn [target key copy]. split; intros Hr; rewrite Hr; [|reflexivity].
    apply storage_get_put_same, storage_has_open.
  - intros Hc Hmiss.
    rewrite (handleFetch_static_fetched request w res Hc Hq Hmiss Hnet). split.
    + intros [Hs Ht].
      apply Z.eqb_eq in Hs. apply String.eqb_neq in Ht. now rewrite Hs, Ht.
    + intros Hn.
      assert (E : (status res =? 200)%Z && negb (type res =? "opaque") = false).
      { destruct Hn as [Hs|Ht].
        - apply Z.eqb_neq in Hs. now rewrite Hs.
        - apply String.eqb_eq in Ht. rewrite Ht. apply andb_false_r. }
      now rewrite E.
Qed.

(** C10.  While a request is handled, every [cache.put] goes to the
    runtime generation and the static generation keeps its contents;
    activation and the message listener put nothing and leave the
    static generation as it is; the puts of the install listener all
    go to the static generation. *)
Theorem static_generation_written_only_by_install (request : Request) (w : World) :
  quiescent w ->
  (forall n k v, In (CachePut n k v) (effects (handle request w)) ->
                 n = RUNTIME_CACHE)
  /\ storage_get STATIC_CACHE (caches (world (handle request w)))
     = storage_get STATIC_CACHE (caches w)
  /\ (forall n k v, In (CachePut n k v) (effects (onInstall self_origin networkFetch w)) ->
                    n = STATIC_CACHE)
  /\ (forall n k v, ~ In (CachePut n k v) (effects (onActivate w)))
  /\ storage_get STATIC_CACHE (caches (world (onActivate w)))
     = storage_get STATIC_CACHE (caches w)
  /\ (forall data, world (onMessage data w) = w
                   /\ forall n k v, ~ In (CachePut n k v) (effects (onMessage data w))).
Proof.
  unfold quiescent. intros Hq.
  destruct (onFetch_world request w) as (Hcs & ws & Hds & Hws).
  rewrite Hq in Hds. simpl in Hds.
  assert (Hsplit : effects (handle request w)
                   = effects (listen request w)
                     ++ effects (run_writes ws {| caches := caches w; detached := [] |})
                   /\ world (handle request w)
                      = world (run_writes ws {| caches := caches w; detached := [] |})).
  { unfold handleFetch, bind, ret, effects, world, settle in *.
    destruct (listen request w) as [[o w1] t1]. simpl in *. subst. rewrite Hcs.
    destruct (run_writes _ _) as [[u w2] t2]. simpl.
    now rewrite app_nil_r. }
  destruct Hsplit as [He Hw]. repeat split.
  - intros n k v Hin. rewrite He in Hin. apply in_app_or in Hin as [Hin|Hin].
    + apply onFetch_effects in Hin as [[q Hin]|[[k' Hin]|Hin]]; discriminate.
    + apply run_writes_effects in Hin as (wr & Hwr & [Hin|Hin]); [discriminate|].
      injection Hin as -> _ _.
      exact (proj1 (Forall_forall _ _) Hws wr Hwr).
  - rewrite Hw. rewrite run_writes_other; [reflexivity|].
    eapply Forall_impl; [|exact Hws]. simpl. intros wr ->.
    intros E. symmetry in E. exact (STATIC_not_RUNTIME E).
  - intros n k v. apply onInstall_puts.
  - intros n k v. rewrite onActivate_run. simpl.
    intros [Hin|Hin]; [discriminate|]. apply in_app_or in Hin as [Hin|[Hin|[]]].
    + apply in_map_iff in Hin as (x & Hx & _). discriminate.
    + discriminate.
  - rewrite onActivate_run. cbn [world caches fst snd].
    now apply storage_get_filter_kept.
  - destruct data as [d|]; cbn; [destruct (msg_type d =? "SKIP_WAITING")|]; reflexivity.
  - intros n k v Hin. unfold onMessage in Hin.
    destruct data as [d|]; [destruct (msg_type d =? "SKIP_WAITING")|];
      cbn in Hin; split_in Hin.
Qed.

(** C2 (amended).  A request that is not a [GET] is not intercepted:
    the page gets what the network answers to it.  For a [GET] the
    listener calls [respondWith] once, with a promise that resolves
    either with a response, which is the network's answer to the
    request, a response some generation holds, or the made-up 504
    with no body; or with no response at all, which the page sees as
    a failed fetch.  The latter happens only when the network fetch
    was rejected, [caches.match] found nothing for the request, and
    the class has no further fallback (API) or its fallback document
    is not in the store (navigation: the offline document; static:
    the placeholder for an image, the offline document for a request
    that accepts HTML). *)
Theorem fetch_response_contract (request : Request) (w : World) :
  if isGET request then
    exists x, result (handle request w) = RespondWith x
      /\ match x with
         | Some r =>
             deliver request (RespondWith x) = Fulfilled r
             /\ (networkFetch request = Fulfilled r
                 \/ (exists k, stored_in (caches w) k r)
                 \/ r = gatewayTimeout)
         | None =>
             deliver request (RespondWith x) = Rejected
             /\ networkFetch request = Rejected
             /\ storage_match (url request) (caches w) = None
             /\ ((isNavigation request = true
                  /\ storage_match offline (caches w) = None)
                 \/ isApi request = true
                 \/ (isStatic request = true
                     /\ destination request = "image"
                     /\ storage_match placeholder (caches w) = None)
                 \/ (isStatic request = true
                     /\ destination request <> "image"
                     /\ accepts_html request = true
                     /\ storage_match offline (caches w) = None))
         end
  else
    result (handle request w) = NotIntercepted
    /\ deliver request (result (handle request w)) = networkFetch request.
Proof.
  rewrite handleFetch_result.
  unfold isNavigation, isApi, isStatic, isGET.
  destruct (method request =? "GET") eqn:Hm; [|split; now run_known].
  destruct (mode request =? "navigate") eqn:Hn;
    [|destruct (startsWith (pathname (url request)) "/api/") eqn:Hp];
    destruct (networkFetch request) as [res|] eqn:Hnet;
    destruct (storage_match (url request) (caches w)) as [c|] eqn:Hc;
    try (exists (Some res); split;
         [run_known; try destruct (_ && _); reflexivity|cbn; auto]; fail);
    try (exists (Some c); split; [now run_known|cbn];
         split; [reflexivity|right; left; exists (url request)];
         now apply storage_match_stored).
  - exists (storage_match offline (caches w)). split; [now run_known|].
    destruct (storage_match offline (caches w)) as [d|] eqn:Hd; cbn.
    + split; [reflexivity|right; left; exists offline]. now apply storage_match_stored.
    + auto 10.
  - exists None. split; [now run_known|]. cbn. auto 10.
  - destruct (destination request =? "image") eqn:Hi;
      [|destruct (accepts_html request) eqn:Ha].
    + exists (storage_match placeholder (caches w)). split; [now run_known|].
      apply String.eqb_eq in Hi.
      destruct (storage_match placeholder (caches w)) as [d|] eqn:Hd; cbn.
      * split; [reflexivity|right; left; exists placeholder].
        now apply storage_match_stored.
      * auto 10.
    + exists (storage_match offline (caches w)). split; [now run_known|].
      apply String.eqb_neq in Hi.
      destruct (storage_match offline (caches w)) as [d|] eqn:Hd; cbn.
      * split; [reflexivity|right; left; exists offline].
        now apply storage_match_stored.
      * auto 10.
    + exists (Some gatewayTimeout). split; [now run_known|]. cbn. auto.
Qed.

End Routing.

(* ------------------------------------------------------------------ *)
(** ** The theorems at concrete requests *)

Import Ex.

(** With the network up, install fulfils and every asset of the
    manifest is then held by the static generation. *)
Example install_preloads_manifest :
  result (onInstall site network_up fresh) = true
  /\ forall path, In path STATIC_ASSETS ->
       exists c, storage_get STATIC_CACHE (caches installed) = Some c
                 /\ cache_match (self_url site path) c = Some (asset path).
Proof.
  split; [vm_compute; reflexivity|]. intros path Hin.
  eexists. split; [vm_compute; reflexivity|].
  repeat (destruct Hin as [<-|Hin]; [vm_compute; reflexivity|]). destruct Hin.
Qed.

(** With the network down, install rejects, nothing is stored and the
    waiting phase is not skipped. *)
Example install_fails_as_a_whole :
  result (onInstall site network_down fresh) = false
  /\ caches (world (onInstall site network_down fresh)) = [(STATIC_CACHE, [])]
  /\ ~ In SkipWaiting (effects (onInstall site network_down fresh)).
Proof.
  split; [vm_compute; reflexivity|]. split; [vm_compute; reflexivity|].
  intros Hin. vm_compute in Hin. split_in Hin.
Qed.

(** A server that answers every path with a partial response, or with
    [Vary: *]: install rejects although the statuses are 206 and 200. *)
Example install_rejects_what_the_cache_refuses :
  result (onInstall site network_ranged fresh) = false
  /\ result (onInstall site network_varying fresh) = false.
Proof.
  split; vm_compute; reflexivity.
Qed.

(** An API request with the network down and an empty store. *)
Lemma api_failure_without_cache_is_propagated_witness :
  isApi api_users = true
  /\ network_down api_users = Rejected
  /\ storage_match (url api_users) (caches fresh) = None
  /\ (onFetch site network_down api_users fresh
        = (RespondWith None, fresh,
           [NetworkFetch api_users; CachesMatch (url api_users)])
      /\ delivered network_down api_users
           (result (handleFetch site network_down api_users fresh))
         = network_down api_users
      /\ forall res,
           delivered network_down api_users
             (result (handleFetch site network_down api_users fresh))
           <> Fulfilled res).
Proof.
  split; [reflexivity|]. split; [reflexivity|]. split; [reflexivity|].
  apply (api_failure_without_cache_is_propagated site network_down api_users fresh);
    reflexivity.
Defined.

(** C2, as stated, fails: for the API request ['/api/users'], with the
    network down and nothing stored, the page gets no response at all,
    neither a response from the network or the cache nor the 504. *)
Lemma response_contract_fails_for_api :
  isGET api_users = true
  /\ result (handleFetch site network_down api_users fresh) = RespondWith None
  /\ ~ exists res,
         delivered network_down api_users
           (result (handleFetch site network_down api_users fresh))
         = Fulfilled res.
Proof.
  split; [reflexivity|]. split; [reflexivity|].
  intros [res H]. discriminate H.
Qed.

(** C3, as stated, fails: after a first install and the activation that
    follows it the store holds the static generation only; the runtime
    generation is not there. *)
Lemma activation_leaves_no_runtime_generation :
  result (onInstall site network_up fresh) = true
  /\ storage_keys (caches (world (onActivate installed))) = [STATIC_CACHE]
  /\ ~ (forall n, n = STATIC_CACHE \/ n = RUNTIME_CACHE ->
                  In n (storage_keys (caches (world (onActivate installed))))).
Proof.
  split; [reflexivity|]. split; [reflexivity|].
  intros H. specialize (H RUNTIME_CACHE (or_intror eq_refl)).
  vm_compute in H. destruct H as [H|[]]. discriminate H.
Qed.

(** C4, as stated, fails: a font the cache does not hold, answered
    with status 200, a type that is not opaque and [Vary: *].  The
    listener passes it to [cache.put], the cache refuses it, and
    [caches.match] does not find it afterwards. *)
Lemma varying_response_is_not_stored :
  isStatic font = true
  /\ storage_match (url font) (caches fresh) = None
  /\ network_varying font = Fulfilled varying
  /\ status varying = 200%Z
  /\ type varying <> "opaque"
  /\ result (handleFetch site network_varying font fresh) = RespondWith (Some varying)
  /\ In (CachePut RUNTIME_CACHE (url font) varying)
        (effects (handleFetch site network_varying font fresh))
  /\ storage_match (url font)
       (caches (world (handleFetch site network_varying font fresh))) = None.
Proof.
  repeat (split; [first [reflexivity | discriminate]|]).
  split; [|vm_compute; reflexivity].
  vm_compute. right; right; right; left; reflexivity.
Qed.

(** A font the cache does not hold, fetched once with the network up,
    once from a server that answers opaquely, and once from one that
    answers with [Vary: *]. *)
Lemma static_network_response_cacheability_witness :
  (isStatic font = true /\ quiescent fresh
   /\ storage_match (url font) (caches fresh) = None
   /\ network_up font = Fulfilled (asset "/fonts/body.woff2"))
  /\ storage_match (url font)
       (caches (world (handleFetch site network_up font fresh)))
     = Some (asset "/fonts/body.woff2")
  /\ result (handleFetch site network_down font
               (world (handleFetch site network_up font fresh)))
     = RespondWith (Some (asset "/fonts/body.woff2"))
  /\ world (handleFetch site network_opaque font fresh) = fresh
  /\ storage_match (url font)
       (caches (world (handleFetch site network_varying font fresh)))
     = storage_match (url font) (caches fresh).
Proof.
  assert (Hc : isStatic font = true) by reflexivity.
  assert (Hq : quiescent fresh) by reflexivity.
  assert (Hmiss : storage_match (url font) (caches fresh) = None) by reflexivity.
  assert (Hup : network_up font = Fulfilled (asset "/fonts/body.woff2")) by reflexivity.
  assert (Hop : network_opaque font = Fulfilled opaque) by reflexivity.
  assert (Hvar : network_varying font = Fulfilled varying) by reflexivity.
  assert (Hok : status (asset "/fonts/body.woff2") = 200%Z
                /\ type (asset "/fonts/body.woff2") <> "opaque"
                /\ vary_star (headers (asset "/fonts/body.woff2")) = false)
    by (split; [reflexivity|split; [discriminate|reflexivity]]).
  pose proof (static_network_response_cacheability site network_up font fresh
                (asset "/fonts/body.woff2")
                Hc Hq Hmiss Hup) as (_ & _ & Hstored & _).
  pose proof (static_network_response_cacheability site network_opaque font fresh opaque
                Hc Hq Hmiss Hop) as (_ & _ & _ & _ & Hnot & _).
  pose proof (static_network_response_cacheability site network_varying font fresh varying
                Hc Hq Hmiss Hvar) as (_ & _ & _ & Hrefused & _).
  split; [repeat split|].
  destruct (Hstored Hok) as [Hm Hnext].
  split; [exact Hm|]. split; [|split].
  - rewrite handleFetch_result, (Hnext network_down). reflexivity.
  - exact (Hnot (or_intror eq_refl)).
  - exact (Hrefused (or_intror (or_intror eq_refl)) (url font)).
Defined.

(** The stylesheet after install, with the network down. *)
Lemma static_hit_makes_no_network_call_witness :
  isStatic stylesheet = true
  /\ storage_match (url stylesheet) (caches installed) = Some (asset "/styles/main.css")
  /\ (onFetch site network_down stylesheet installed
        = (RespondWith (Some (asset "/styles/main.css")), installed, [CachesMatch (url stylesheet)])
      /\ forall q,
           ~ In (NetworkFetch q)
                (effects (handleFetch site network_down stylesheet installed))).
Proof.
  split; [reflexivity|]. split; [reflexivity|].
  apply (static_hit_makes_no_network_call site network_down stylesheet installed
           (asset "/styles/main.css"));
    reflexivity.
Defined.

(** Two navigations after install with the network down: the home page,
    which the store holds, and a page it does not hold. *)
Lemma navigation_failure_falls_back_witness :
  (isNavigation home = true /\ network_down home = Rejected
   /\ isNavigation about = true /\ network_down about = Rejected)
  /\ result (onFetch site network_down home installed) = RespondWith (Some (asset "/"))
  /\ storage_match (url about) (caches installed) = None
  /\ delivered network_down about
       (result (handleFetch site network_down about installed))
     = Fulfilled (asset "/offline.html").
Proof.
  pose proof (navigation_failure_falls_back site network_down home installed
                eq_refl eq_refl) as (Hhit & _ & _).
  pose proof (navigation_failure_falls_back site network_down about installed
                eq_refl eq_refl) as (_ & _ & Hmiss).
  split; [repeat split|].
  split; [now rewrite (proj1 (Hhit (asset "/") eq_refl))|].
  split; [reflexivity|].
  exact (proj2 (Hmiss eq_refl) (asset "/offline.html") eq_refl).
Defined.

(** Three static requests that reach the network while it is down,
    after install: an image, a fragment of HTML and a font. *)
Lemma static_failure_fallback_order_witness :
  (isStatic photo = true /\ isStatic partial = true /\ isStatic font = true)
  /\ In (NetworkFetch font) (effects (onFetch site network_down font installed))
  /\ network_down font = Rejected
  /\ result (onFetch site network_down photo installed)
     = RespondWith (Some (asset "/icons/icon-192x192.png"))
  /\ result (onFetch site network_down partial installed)
     = RespondWith (Some (asset "/offline.html"))
  /\ result (onFetch site network_down font installed) = RespondWith (Some gatewayTimeout).
Proof.
  assert (Hphoto : In (NetworkFetch photo)
                      (effects (onFetch site network_down photo installed)))
    by (right; left; reflexivity).
  assert (Hpartial : In (NetworkFetch partial)
                        (effects (onFetch site network_down partial installed)))
    by (right; left; reflexivity).
  assert (Hfont : In (NetworkFetch font)
                     (effects (onFetch site network_down font installed)))
    by (right; left; reflexivity).
  split; [repeat split|]. split; [exact Hfont|]. split; [reflexivity|].
  split; [|split].
  - exact (proj1 (static_failure_fallback_order site network_down photo installed
                    eq_refl Hphoto eq_refl)).
  - exact (proj1 (static_failure_fallback_order site network_down partial installed
                    eq_refl Hpartial eq_refl)).
  - exact (proj1 (static_failure_fallback_order site network_down font installed
                    eq_refl Hfont eq_refl)).
Defined.

(** A [POST] to the API. *)
Lemma non_GET_bypasses_the_cache_witness :
  isGET post_users = false
  /\ (onFetch site network_up post_users installed = (NotIntercepted, installed, [])
      /\ delivered network_up post_users
           (result (onFetch site network_up post_users installed))
         = network_up post_users
      /\ (quiescent installed ->
          handleFetch site network_up post_users installed
          = (NotIntercepted, installed, []))).
Proof.
  split; [reflexivity|].
  apply (non_GET_bypasses_the_cache site network_up post_users installed).
  reflexivity.
Defined.

(** C9, as stated, fails: an API request answered with a partial
    response (status 206).  [cache.put] is called with it, the cache
    refuses it, and the runtime generation holds nothing under the
    request's URL. *)
Lemma partial_response_is_not_written :
  isApi api_users = true
  /\ network_ranged api_users = Fulfilled ranged
  /\ In (CachePut RUNTIME_CACHE (url api_users) ranged)
        (effects (handleFetch site network_ranged api_users fresh))
  /\ caches (world (handleFetch site network_ranged api_users fresh))
     = [(RUNTIME_CACHE, [])]
  /\ lookup_in RUNTIME_CACHE (url api_users)
       (caches (world (handleFetch site network_ranged api_users fresh))) = None.
Proof.
  split; [reflexivity|]. split; [reflexivity|].
  split; [|split; vm_compute; reflexivity].
  vm_compute. right; right; left; reflexivity.
Qed.

(** An API request answered with a 404 and a navigation answered
    opaquely: both responses end up in the runtime generation; a font
    answered opaquely is not put; an API request answered with a 206
    is put and refused. *)
Lemma network_first_writes_unconditionally_witness :
  (quiescent fresh /\ network_404 api_users = Fulfilled missing
   /\ network_opaque home = Fulfilled opaque)
  /\ (exists c,
        storage_get RUNTIME_CACHE
          (caches (world (handleFetch site network_404 api_users fresh))) = Some c
        /\ cache_match (url api_users) c = Some missing)
  /\ (exists c,
        storage_get RUNTIME_CACHE
          (caches (world (handleFetch site network_opaque home fresh))) = Some c
        /\ cache_match (url home) c = Some opaque)
  /\ world (handleFetch site network_opaque font fresh) = fresh
  /\ effects (handleFetch site network_ranged api_users fresh)
     = [NetworkFetch api_users; CachesOpen RUNTIME_CACHE;
        CachePut RUNTIME_CACHE (url api_users) ranged].
Proof.
  assert (Hq : quiescent fresh) by reflexivity.
  assert (H404 : network_404 api_users = Fulfilled missing) by reflexivity.
  assert (Hop : network_opaque home = Fulfilled opaque) by reflexivity.
  assert (Hfont : network_opaque font = Fulfilled opaque) by reflexivity.
  assert (H206 : network_ranged api_users = Fulfilled ranged) by reflexivity.
  pose proof (network_first_writes_unconditionally site network_404 api_users fresh missing
                Hq H404) as [Hapi _].
  pose proof (network_first_writes_unconditionally site network_opaque home fresh opaque
                Hq Hop) as [Hnav _].
  pose proof (network_first_writes_unconditionally site network_opaque font fresh opaque
                Hq Hfont) as [_ Hstatic].
  pose proof (network_first_writes_unconditionally site network_ranged api_users fresh
                ranged Hq H206) as [Hranged _].
  split; [repeat split|].
  split; [exact (proj1 (proj2 (Hapi (or_intror eq_refl))) eq_refl)|].
  split; [exact (proj1 (proj2 (Hnav (or_introl eq_refl))) eq_refl)|].
  split; [exact (proj2 (proj2 (Hstatic eq_refl eq_refl) (or_intror eq_refl)))|].
  exact (proj1 (Hranged (or_intror eq_refl))).
Defined.

(** A font fetched after install: the static generation is as install
    left it. *)
Lemma static_generation_written_only_by_install_witness :
  quiescent installed
  /\ storage_get STATIC_CACHE
       (caches (world (handleFetch site network_up font installed)))
     = storage_get STATIC_CACHE (caches installed)
  /\ forall n k v,
       In (CachePut n k v) (effects (handleFetch site network_up font installed)) ->
       n = RUNTIME_CACHE.
Proof.
  pose proof (static_generation_written_only_by_install site network_up font installed
                eq_refl) as (Hputs & Hstatic & _).
  split; [reflexivity|]. split; [exact Hstatic|exact Hputs].
Defined.

(* ------------------------------------------------------------------ *)
(** ** More about the store *)

Lemma URL_eqb_neq (a b : URL) : URL_eqb a b = false <-> a <> b.
Proof.
  rewrite <- URL_eqb_eq. destruct (URL_eqb a b); split; congruence.
Qed.

(** A put leaves the entries under the other keys as they are. *)
Lemma cache_match_put_other (k k' : URL) (v : Response) (c : Cache) :
  k' <> k -> cache_match k' (cache_put k v c) = cache_match k' c.
Proof.
  intros Hk. unfold cache_match, cache_put.
  induction c as [|[k0 r0] c IH]; simpl.
  - assert (E : URL_eqb k k' = false) by (apply URL_eqb_neq; congruence).
    now rewrite E.
  - destruct (URL_eqb k0 k) eqn:E; simpl.
    + apply URL_eqb_eq in E. subst k0.
      assert (E : URL_eqb k k' = false) by (apply URL_eqb_neq; congruence).
      now rewrite E.
    + destruct (URL_eqb k0 k'); [reflexivity|exact IH].
Qed.

Lemma storage_get_put (m n : string) (k : URL) (v : Response) (cs : CacheStorage) :
  storage_get m (storage_put n k v cs)
  = match storage_get m cs with
    | Some c => Some (if m =? n then cache_put k v c else c)
    | None => None
    end.
Proof.
  unfold storage_get, storage_put.
  induction cs as [|[m' c] cs IH]; simpl; [reflexivity|].
  destruct (m' =? n) eqn:E; simpl; destruct (m' =? m) eqn:E'; try exact IH.
  - apply String.eqb_eq in E'. subst m'. now rewrite E.
  - apply String.eqb_eq in E'. subst m'. now rewrite E.
Qed.


Lemma storage_has_get (n : string) (cs : CacheStorage) :
  storage_has n cs = true <-> exists c, storage_get n cs = Some c.
Proof.
  unfold storage_has, storage_get.
  induction cs as [|[m c] cs IH]; simpl.
  - split; [discriminate|]. intros [c H]. discriminate.
  - destruct (m =? n); simpl; [|exact IH].
    split; [eauto|reflexivity].
Qed.

Lemma storage_has_put (m n : string) (k : URL) (v : Response) (cs : CacheStorage) :
  storage_has m (storage_put n k v cs) = storage_has m cs.
Proof.
  unfold storage_has, storage_put.
  induction cs as [|[m' c] cs IH]; simpl; [reflexivity|].
  rewrite IH. now destruct (m' =? n).
Qed.

Lemma lookup_in_open (m n : string) (k : URL) (cs : CacheStorage) :
  lookup_in m k (storage_open n cs) = lookup_in m k cs.
Proof.
  unfold lookup_in, storage_open. destruct (storage_has n cs); [reflexivity|].
  unfold storage_get. induction cs as [|[m' c] cs IH]; simpl.
  - now destruct (n =? m).
  - destruct (m' =? m); [reflexivity|exact IH].
Qed.

Lemma lookup_in_put_other (m n : string) (k k' : URL) (v : Response) (cs : CacheStorage) :
  m <> n \/ k' <> k ->
  lookup_in m k' (storage_put n k v cs) = lookup_in m k' cs.
Proof.
  intros H. unfold lookup_in. rewrite storage_get_put.
  destruct (storage_get m cs) as [c|]; [|reflexivity].
  destruct (m =? n) eqn:E; [|reflexivity].
  apply String.eqb_eq in E. destruct H as [H|H]; [congruence|].
  now apply cache_match_put_other.
Qed.

Lemma lookup_in_put_same (n : string) (k : URL) (v : Response) (cs : CacheStorage) :
  storage_has n cs = true ->
  lookup_in n k (storage_put n k v cs) = Some v.
Proof.
  intros H. apply storage_has_get in H as [c Hc].
  unfold lookup_in. rewrite storage_get_put, Hc, String.eqb_refl.
  apply cache_match_put.
Qed.


(** A put changes no answer of [caches.match] for another key. *)
Lemma storage_match_put_other (n : string) (k k' : URL) (v : Response) (cs : CacheStorage) :
  k' <> k -> storage_match k' (storage_put n k v cs) = storage_match k' cs.
Proof.
  intros Hk. unfold storage_put.
  induction cs as [|[m c] cs IH]; simpl; [reflexivity|].
  destruct (m =? n); simpl; rewrite IH; [|reflexivity].
  now rewrite cache_match_put_other.
Qed.

(** A put under a key that [caches.match] finds: it still finds the old
    response, or it finds the new one. *)
Lemma storage_match_put_hit (n : string) (k : URL) (v r : Response) (cs : CacheStorage) :
  storage_match k cs = Some r ->
  storage_match k (storage_put n k v cs) = Some r
  \/ storage_match k (storage_put n k v cs) = Some v.
Proof.
  unfold storage_put.
  induction cs as [|[m c] cs IH]; simpl; [discriminate|].
  destruct (m =? n); simpl.
  - intros _. rewrite cache_match_put. now right.
  - destruct (cache_match k c); [now left|exact IH].
Qed.

(** A put into a generation that exists, when no other generation holds
    the key: [caches.match] finds what was put. *)
Lemma storage_match_put_only (n : string) (k : URL) (v : Response) (cs : CacheStorage) :
  storage_has n cs = true ->
  (forall m c, In (m, c) cs -> m <> n -> cache_match k c = None) ->
  storage_match k (storage_put n k v cs) = Some v.
Proof.
  unfold storage_has, storage_put.
  induction cs as [|[m c] cs IH]; simpl; [discriminate|].
  destruct (m =? n) eqn:E; simpl.
  - intros _ _. now rewrite cache_match_put.
  - intros Hh Ho. apply String.eqb_neq in E.
    rewrite (Ho m c (or_introl eq_refl) E).
    apply IH; [exact Hh|]. intros m' c' Hin. apply Ho. now right.
Qed.

(** A put into a generation leaves the generations of another name as
    they are. *)
Lemma storage_put_absent (n : string) (k : URL) (v : Response) (cs : CacheStorage) :
  storage_has n cs = false -> storage_put n k v cs = cs.
Proof.
  unfold storage_has, storage_put.
  induction cs as [|[m c] cs IH]; simpl; [reflexivity|].
  destruct (m =? n); simpl; [discriminate|].
  intros H. now rewrite IH.
Qed.

Lemma storage_keys_put (n : string) (k : URL) (v : Response) (cs : CacheStorage) :
  storage_keys (storage_put n k v cs) = storage_keys cs.
Proof.
  unfold storage_keys, storage_put.
  induction cs as [|[m c] cs IH]; simpl; [reflexivity|].
  rewrite IH. now destruct (m =? n).
Qed.

(* ------------------------------------------------------------------ *)
(** ** What one handled request does to the store *)

Lemma handleFetch_effects (o : string) (net : Request -> Settled) (request : Request)
      (w : World) :
  effects (handleFetch o net request w)
  = effects (onFetch o net request w) ++ effects (settle (world (onFetch o net request w))).
Proof.
  unfold handleFetch, bind, ret, effects, world.
  destruct (onFetch o net request w) as [[out w1] t1]. simpl.
  destruct (settle w1) as [[u w2] t2]. simpl. now rewrite app_nil_r.
Qed.

Lemma handleFetch_world (o : string) (net : Request -> Settled) (request : Request)
      (w : World) :
  world (handleFetch o net request w) = world (settle (world (onFetch o net request w))).
Proof.
  unfold handleFetch, bind, ret, world.
  destruct (onFetch o net request w) as [[out w1] t1]. simpl.
  now destruct (settle w1) as [[u w2] t2].
Qed.

(** The listener reads the store and starts at most one write: a copy
    of the network's response, under the request's URL, for the runtime
    generation. *)
Lemma onFetch_writes (o : string) (net : Request -> Settled) (request : Request)
      (w : World) :
  world (onFetch o net request w) = w
  \/ exists res,
       net request = Fulfilled res
       /\ world (onFetch o net request w)
          = {| caches := caches w;
               detached := detached w
                           ++ [{| target := RUNTIME_CACHE; key := url request;
                                  copy := res |}] |}.
Proof.
  unfold_run.
  repeat match goal with
         | |- context [if ?b then _ else _] => destruct b
         | |- context [match net ?q with _ => _ end] =>
             let E := fresh "E" in destruct (net q) eqn:E
         | |- context [match storage_match ?k ?cs with _ => _ end] =>
             destruct (storage_match k cs)
         end; simpl; first [now left | right; eauto].
Qed.

(** One handled request leaves the store as it was, or it makes sure
    the runtime generation is there and puts the network's response
    into it under the request's URL, which the cache refuses or
    takes. *)
Lemma handleFetch_caches (o : string) (net : Request -> Settled) (request : Request)
      (w : World) :
  quiescent w ->
  world (handleFetch o net request w) = w
  \/ (exists res,
        net request = Fulfilled res
        /\ put_refused res = true
        /\ world (handleFetch o net request w)
           = {| caches := storage_open RUNTIME_CACHE (caches w); detached := [] |})
  \/ (exists res,
        net request = Fulfilled res
        /\ put_refused res = false
        /\ world (handleFetch o net request w)
           = {| caches := storage_put RUNTIME_CACHE (url request) res
                            (storage_open RUNTIME_CACHE (caches w));
                detached := [] |}).
Proof.
  unfold quiescent. intros Hq. rewrite handleFetch_world.
  destruct (onFetch_writes o net request w) as [E|(res & Hnet & E)]; rewrite E.
  - left. unfold settle. rewrite Hq. destruct w; simpl in *. now subst.
  - right. unfold settle. cbn [detached caches]. rewrite Hq. cbn [app run_writes].
    unfold bind, ret, world. rewrite run_write_run. cbn [fst snd]. unfold written.
    cbn [target key copy].
    destruct (put_refused res) eqn:R; [left|right]; exists res; auto.
Qed.

Lemma fetches_app (s t : list Effect) : fetches (s ++ t) = fetches s ++ fetches t.
Proof.
  induction s as [|e s IH]; simpl; [reflexivity|].
  destruct e; simpl; congruence.
Qed.

Lemma fetches_none (t : list Effect) :
  (forall q, ~ In (NetworkFetch q) t) -> fetches t = [].
Proof.
  induction t as [|e t IH]; simpl; [reflexivity|]. intros H.
  destruct e; try (apply IH; intros q Hq; apply (H q); now right).
  exfalso. apply (H request). now left.
Qed.

Lemma settle_fetches (w : World) : fetches (effects (settle w)) = [].
Proof.
  apply fetches_none. intros q Hin. unfold settle in Hin.
  apply run_writes_effects in Hin as (wr & _ & [H|H]); discriminate.
Qed.

Section Offline.

Variable self_origin : string.
Variable networkFetch : Request -> Settled.

Local Abbreviation respond := (onFetch self_origin networkFetch).
Local Abbreviation serve := (handleFetch self_origin networkFetch).
Local Abbreviation runtime_copy :=
  (fun request res => {| target := RUNTIME_CACHE; key := url request; copy := res |}).

(** X1.  A navigation or API request that the network answers: before
    it answers, the listener makes two platform calls, the fetch and
    the [caches.open] of the runtime generation; it reads nothing from
    the cache and resolves with the live response whatever the store
    holds.  The [cache.put] of the copy has not been called then: it
    is left to follow, and the store is as it was. *)
Theorem network_first_answers_without_reading_the_cache
        (request : Request) (w : World) (res : Response) :
  isNavigation request = true \/ isApi request = true ->
  networkFetch request = Fulfilled res ->
  respond request w
  = (RespondWith (Some res),
     {| caches := caches w; detached := detached w ++ [runtime_copy request res] |},
     [NetworkFetch request; CachesOpen RUNTIME_CACHE]).
Proof.
  intros [Hc|Hc] Hnet; class_case Hc; run_known.
Qed.

(** X2.  An API request whose fetch is rejected while [caches.match]
    finds a response for it: that response is the answer, the store is
    left alone, and the listener makes no call beyond the fetch and
    the one lookup (the offline document is not looked up). *)
Theorem api_failure_with_cache_serves_the_copy
        (request : Request) (w : World) (c : Response) :
  isApi request = true ->
  networkFetch request = Rejected ->
  storage_match (url request) (caches w) = Some c ->
  respond request w
  = (RespondWith (Some c), w, [NetworkFetch request; CachesMatch (url request)]).
Proof.
  intros Hc Hnet Hhit. class_case Hc. run_known.
Qed.

(** X3.  Whatever the request, when its fetch is rejected the handling
    changes nothing in the store. *)
Theorem rejected_fetch_leaves_the_store (request : Request) (w : World) :
  quiescent w ->
  networkFetch request = Rejected ->
  world (serve request w) = w.
Proof.
  intros Hq Hnet.
  destruct (handleFetch_caches self_origin networkFetch request w Hq)
    as [E|[(res & Hres & _)|(res & Hres & _)]]; [exact E|congruence|congruence].
Qed.

(** X4.  While a request is handled the network is contacted at most
    once, and only for the request itself: not at all for a request
    that is not a [GET] or for a static request the cache holds, once
    otherwise. *)
Theorem one_fetch_per_request (request : Request) (w : World) :
  fetches (effects (serve request w))
  = if negb (isGET request) then []
    else if isStatic request then
      match storage_match (url request) (caches w) with
      | Some _ => []
      | None => [request]
      end
    else [request].
Proof.
  rewrite handleFetch_effects, fetches_app, settle_fetches, app_nil_r.
  unfold isStatic, isGET. unfold_run.
  destruct (method request =? "GET"); [|reflexivity].
  destruct (mode request =? "navigate"); cbn.
  - destruct (networkFetch request); [reflexivity|].
    now destruct (storage_match (url request) (caches w)).
  - destruct (startsWith (pathname (url request)) "/api/"); cbn.
    + now destruct (networkFetch request).
    + destruct (storage_match (url request) (caches w)); [reflexivity|].
      destruct (networkFetch request); cbn.
      * now destruct (_ && _).
      * destruct (destination request =? "image"); [reflexivity|].
        now destruct (accepts_html request).
Qed.

(** X5.  Handling a request changes nothing under another URL: what
    [caches.match] answers for another key, and what any generation
    holds under another key, are as before; nor does it remove a
    generation: the names are as before, with the runtime name added
    at the end when the generation had to be created. *)
Theorem other_entries_are_untouched (request : Request) (w : World) :
  quiescent w ->
  (forall k, k <> url request ->
     storage_match k (caches (world (serve request w))) = storage_match k (caches w)
     /\ forall n, lookup_in n k (caches (world (serve request w)))
                  = lookup_in n k (caches w))
  /\ (forall n k, n <> RUNTIME_CACHE ->
        lookup_in n k (caches (world (serve request w))) = lookup_in n k (caches w))
  /\ (storage_keys (caches (world (serve request w))) = storage_keys (caches w)
      \/ storage_keys (caches (world (serve request w)))
         = storage_keys (caches w) ++ [RUNTIME_CACHE]).
Proof.
  intros Hq.
  assert (Hkeys : storage_keys (storage_open RUNTIME_CACHE (caches w))
                  = storage_keys (caches w)
                  \/ storage_keys (storage_open RUNTIME_CACHE (caches w))
                     = storage_keys (caches w) ++ [RUNTIME_CACHE]).
  { unfold storage_open.
    destruct (storage_has RUNTIME_CACHE (caches w)); [now left|right].
    unfold storage_keys. now rewrite map_app. }
  destruct (handleFetch_caches self_origin networkFetch request w Hq)
    as [E|[(res & _ & _ & E)|(res & _ & _ & E)]]; rewrite E; [now auto| |];
    cbn [caches]; (split; [|split]).
  - intros k Hk. split; [apply storage_match_open|].
    intros n. apply lookup_in_open.
  - intros n k Hn. apply lookup_in_open.
  - exact Hkeys.
  - intros k Hk. split.
    + now rewrite storage_match_put_other, storage_match_open.
    + intros n. rewrite lookup_in_put_other by now right. apply lookup_in_open.
  - intros n k Hn. rewrite lookup_in_put_other by now left. apply lookup_in_open.
  - now rewrite storage_keys_put.
Qed.

(** X6.  Handling a request never loses a hit: when [caches.match]
    found a response for the request's URL before, it finds one after,
    the same one or the one the network has just answered with. *)
Theorem a_hit_stays_a_hit (request : Request) (w : World) (r : Response) :
  quiescent w ->
  storage_match (url request) (caches w) = Some r ->
  storage_match (url request) (caches (world (serve request w))) = Some r
  \/ exists res,
       networkFetch request = Fulfilled res
       /\ storage_match (url request) (caches (world (serve request w))) = Some res.
Proof.
  intros Hq Hhit.
  destruct (handleFetch_caches self_origin networkFetch request w Hq)
    as [E|[(res & _ & _ & E)|(res & Hnet & _ & E)]]; rewrite E; [now left| |];
    cbn [caches]; [left; now rewrite storage_match_open|].
  destruct (storage_match_put_hit RUNTIME_CACHE (url request) res r
              (storage_open RUNTIME_CACHE (caches w))) as [H|H].
  - now rewrite storage_match_open.
  - now left.
  - right. eauto.
Qed.

End Offline.

(* ------------------------------------------------------------------ *)
(** ** Online, then offline *)

Lemma storage_open_In (n m : string) (c : Cache) (cs : CacheStorage) :
  In (m, c) (storage_open n cs) -> In (m, c) cs \/ (m = n /\ c = []).
Proof.
  unfold storage_open. destruct (storage_has n cs); [now left|].
  intros H. apply in_app_or in H as [H|[H|[]]]; [now left|right].
  now injection H as <- <-.
Qed.

Lemma storage_open_app (n : string) (old rest : CacheStorage) :
  exists rest', storage_open n (old ++ rest) = old ++ rest'.
Proof.
  unfold storage_open. destruct (storage_has n (old ++ rest)).
  - now exists rest.
  - exists (rest ++ [(n, [])]). now rewrite app_assoc.
Qed.

(** What a network-first request finds in the cache when its fetch is
    rejected is what it is answered with, if there is something. *)
Lemma network_first_rejected_hit (o : string) (net : Request -> Settled)
      (request : Request) (w : World) (c : Response) :
  isNavigation request = true \/ isApi request = true ->
  net request = Rejected ->
  storage_match (url request) (caches w) = Some c ->
  result (handleFetch o net request w) = RespondWith (Some c).
Proof.
  intros Hc Hnet Hhit. rewrite handleFetch_result.
  destruct Hc as [Hc|Hc]; class_case Hc; run_known.
Qed.

(** X7.  Online, then offline: a navigation or API request that the
    network answers with a response the cache takes (status other
    than 206, no [Vary: *]), for a URL that no generation other than
    the runtime one holds, is answered with that same response when
    it is made again, after the write has completed, and the fetch is
    rejected, whatever the runtime generation held before. *)
Theorem offline_replay_of_the_last_response
        (o : string) (net1 net2 : Request -> Settled)
        (request : Request) (w : World) (res : Response) :
  isNavigation request = true \/ isApi request = true ->
  quiescent w ->
  (forall n c, In (n, c) (caches w) -> n <> RUNTIME_CACHE ->
               cache_match (url request) c = None) ->
  net1 request = Fulfilled res ->
  put_refused res = false ->
  net2 request = Rejected ->
  result (handleFetch o net1 request w) = RespondWith (Some res)
  /\ result (handleFetch o net2 request (world (handleFetch o net1 request w)))
     = RespondWith (Some res).
Proof.
  intros Hc Hq Honly Hup Htaken Hdown.
  rewrite (handleFetch_network_first o net1 request w res Hc Hq Hup).
  split; [reflexivity|]. cbn [world fst snd].
  apply network_first_rejected_hit; [exact Hc|exact Hdown|]. cbn [caches].
  unfold written. cbn [target key copy]. rewrite Htaken.
  apply storage_match_put_only; [apply storage_has_open|].
  intros m c Hin Hm. apply storage_open_In in Hin as [Hin|[Hn _]]; [|congruence].
  now apply (Honly m c).
Qed.

(** X8.  [caches.match] takes the generations in creation order: when a
    generation created before the runtime one holds the URL of a
    navigation or API request, the same request made again with the
    fetch rejected is answered with that older response, not with the
    one the network gave in between, although the runtime generation
    holds a copy of the fresh one whenever the cache took it. *)
Theorem older_generation_shadows_the_fresh_copy
        (o : string) (net1 net2 : Request -> Settled)
        (request : Request) (w : World) (old rest : CacheStorage) (r0 res : Response) :
  isNavigation request = true \/ isApi request = true ->
  quiescent w ->
  caches w = old ++ rest ->
  storage_has RUNTIME_CACHE old = false ->
  storage_match (url request) old = Some r0 ->
  net1 request = Fulfilled res ->
  net2 request = Rejected ->
  result (handleFetch o net1 request w) = RespondWith (Some res)
  /\ (put_refused res = false ->
      lookup_in RUNTIME_CACHE (url request)
        (caches (world (handleFetch o net1 request w))) = Some res)
  /\ result (handleFetch o net2 request (world (handleFetch o net1 request w)))
     = RespondWith (Some r0).
Proof.
  intros Hc Hq Hcs Hold Hhit Hup Hdown.
  rewrite (handleFetch_network_first o net1 request w res Hc Hq Hup).
  split; [reflexivity|]. cbn [world fst snd caches].
  unfold written. cbn [target key copy]. split.
  - intros ->. apply lookup_in_put_same, storage_has_open.
  - apply network_first_rejected_hit; [exact Hc|exact Hdown|]. cbn [caches].
    rewrite Hcs. destruct (storage_open_app RUNTIME_CACHE old rest) as [rest' ->].
    destruct (put_refused res).
    + now rewrite storage_match_app, Hhit.
    + unfold storage_put. rewrite map_app.
      fold (storage_put RUNTIME_CACHE (url request) res old).
      rewrite (storage_put_absent _ _ _ _ Hold), storage_match_app, Hhit. reflexivity.
Qed.

(* ------------------------------------------------------------------ *)
(** ** The preload *)

(** The entries [cache.addAll] collects for its requests. *)
Lemma fetchAll_run (net : Request -> Settled) (reqs : list Request) (w : World) :
  exists rs,
    fetchAll net reqs w = (rs, w, map NetworkFetch reqs)
    /\ match rs with
       | Some es =>
           forallb (fetched_ok net) reqs = true
           /\ Forall2 (fun q e => fst e = url q /\ net q = Fulfilled (snd e)) reqs es
           /\ Forall (fun e => put_refused (snd e) = false) es
       | None => forallb (fetched_ok net) reqs = false
       end.
Proof.
  induction reqs as [|q reqs IH]; simpl.
  - exists (Some []). repeat split; constructor.
  - destruct IH as (rs & Hrun & Hrs).
    unfold bind, fetch, ret, fetched_ok in *. rewrite Hrun.
    destruct (net q) as [res|] eqn:Hq; simpl.
    + destruct rs as [es|].
      * destruct Hrs as (Hall & Hes & Hput).
        destruct (addAll_accepts res) eqn:Hok; simpl.
        -- exists (Some ((url q, res) :: es)). rewrite app_nil_r.
           split; [reflexivity|]. split; [exact Hall|].
           split; constructor; try assumption; [now split|].
           unfold addAll_accepts in Hok. apply andb_prop in Hok as [_ Hok].
           now apply negb_true_iff in Hok.
        -- exists None. now rewrite app_nil_r.
      * exists None. rewrite app_nil_r. split; [reflexivity|].
        rewrite Hrs. apply andb_false_r.
    + exists None. rewrite app_nil_r. split; [now destruct rs|reflexivity].
Qed.

(** [putAll] on entries the cache takes. *)
Lemma putAll_run (n : string) (es : list (URL * Response)) (w : World) :
  Forall (fun e => put_refused (snd e) = false) es ->
  putAll n es w
  = (tt,
     {| caches := fold_left (put_entry n) es (caches w); detached := detached w |},
     map (fun e => CachePut n (fst e) (snd e)) es).
Proof.
  revert w. induction es as [|[k v] es IH]; intros [cs ds] Hall; simpl; [reflexivity|].
  inversion Hall as [|? ? Hv Hrest]; subst. simpl in Hv.
  unfold bind, cache_put_in. rewrite Hv. rewrite (IH _ Hrest). reflexivity.
Qed.

Lemma fold_put_has (m n : string) (es : list (URL * Response)) (cs : CacheStorage) :
  storage_has m (fold_left (put_entry n) es cs) = storage_has m cs.
Proof.
  revert cs. induction es as [|e es IH]; intros cs; simpl; [reflexivity|].
  rewrite IH. apply storage_has_put.
Qed.

Lemma fold_put_lookup_other (m n : string) (k : URL) (es : list (URL * Response))
      (cs : CacheStorage) :
  m <> n \/ ~ In k (map fst es) ->
  lookup_in m k (fold_left (put_entry n) es cs) = lookup_in m k cs.
Proof.
  revert cs. induction es as [|e es IH]; intros cs H; simpl; [reflexivity|].
  rewrite IH.
  - apply lookup_in_put_other. destruct H as [H|H]; [now left|right].
    intros E. apply H. left. now symmetry.
  - destruct H as [H|H]; [now left|right]. intros Hin. apply H. now right.
Qed.

(** After [putAll] the generation holds every entry of a list without
    repeated keys. *)
Lemma fold_put_lookup (n : string) (es : list (URL * Response)) (cs : CacheStorage)
      (e : URL * Response) :
  storage_has n cs = true ->
  NoDup (map fst es) ->
  In e es ->
  lookup_in n (fst e) (fold_left (put_entry n) es cs) = Some (snd e).
Proof.
  revert cs. induction es as [|e0 es IH]; intros cs Hh Hnd Hin; [destruct Hin|].
  simpl in *. inversion Hnd as [|? ? Hnotin Hnd']; subst.
  destruct Hin as [->|Hin].
  - rewrite fold_put_lookup_other by now right.
    now apply lookup_in_put_same.
  - apply IH; [|exact Hnd'|exact Hin]. unfold put_entry. now rewrite storage_has_put.
Qed.

(** [putAll] removes nothing. *)
Lemma fold_put_keeps (m n : string) (k : URL) (es : list (URL * Response))
      (cs : CacheStorage) (r : Response) :
  lookup_in m k cs = Some r ->
  exists r', lookup_in m k (fold_left (put_entry n) es cs) = Some r'.
Proof.
  revert cs r. induction es as [|e es IH]; intros cs r H; simpl; [eauto|].
  destruct (String.eqb_spec m n) as [->|Hmn].
  - destruct (URL_eqb (fst e) k) eqn:E.
    + apply URL_eqb_eq in E. subst k.
      apply (IH _ (snd e)). apply lookup_in_put_same.
      apply storage_has_get. unfold lookup_in in H.
      destruct (storage_get n cs) as [c|]; [eauto|discriminate].
    + apply URL_eqb_neq in E. apply (IH _ r). unfold put_entry.
      rewrite lookup_in_put_other; [exact H|right; congruence].
  - apply (IH _ r). unfold put_entry.
    rewrite lookup_in_put_other; [exact H|now left].
Qed.

Lemma Forall2_In_l {A B : Type} (P : A -> B -> Prop) (l : list A) (l' : list B) (a : A) :
  Forall2 P l l' -> In a l -> exists b, In b l' /\ P a b.
Proof.
  induction 1 as [|x y l l' Hxy _ IH]; intros Hin; [destruct Hin|].
  destruct Hin as [->|Hin].
  - exists y. split; [now left|exact Hxy].
  - destruct (IH Hin) as (b & Hb & Hab). exists b. split; [now right|exact Hab].
Qed.

Lemma Forall2_keys (net : Request -> Settled) (reqs : list Request)
      (es : list (URL * Response)) :
  Forall2 (fun q e => fst e = url q /\ net q = Fulfilled (snd e)) reqs es ->
  map fst es = map url reqs.
Proof.
  induction 1 as [|q e reqs es [Hk _] _ IH]; simpl; congruence.
Qed.

(** The manifest names each path once. *)
Lemma manifest_keys_NoDup (o : string) :
  NoDup (map url (map (Request_of o) STATIC_ASSETS)).
Proof.
  assert (Hinj : forall l, NoDup l -> NoDup (map url (map (Request_of o) l))).
  { induction 1 as [|p l Hp _ IH]; simpl; constructor; [|exact IH].
    intros Hin. apply Hp. rewrite map_map in Hin.
    apply in_map_iff in Hin as (p' & E & Hin). simpl in E.
    injection E as ->. exact Hin. }
  apply Hinj. unfold STATIC_ASSETS.
  repeat (constructor; [simpl; intros H; split_in H|]). constructor.
Qed.

(** One run of the install listener: the static generation is opened,
    every path of the manifest is requested, and then either all the
    responses are put and the waiting phase is skipped, or nothing
    more happens. *)
Lemma onInstall_run (o : string) (net : Request -> Settled) (w : World) :
  let reqs := map (Request_of o) STATIC_ASSETS in
  let opened := storage_open STATIC_CACHE (caches w) in
  (forallb (fetched_ok net) reqs = false
   /\ onInstall o net w
      = (false, {| caches := opened; detached := detached w |},
         CachesOpen STATIC_CACHE :: map NetworkFetch reqs))
  \/ (exists es,
        forallb (fetched_ok net) reqs = true
        /\ Forall2 (fun q e => fst e = url q /\ net q = Fulfilled (snd e)) reqs es
        /\ onInstall o net w
           = (true,
              {| caches := fold_left (put_entry STATIC_CACHE) es opened;
                 detached := detached w |},
              CachesOpen STATIC_CACHE
                :: map NetworkFetch reqs
                ++ map (fun e => CachePut STATIC_CACHE (fst e) (snd e)) es
                ++ [SkipWaiting])).
Proof.
  intros reqs opened. unfold onInstall, cache_addAll, bind, caches_open, skipWaiting, ret.
  destruct (fetchAll_run net reqs {| caches := opened; detached := detached w |})
    as (rs & Hrun & Hrs).
  fold reqs. fold opened. rewrite Hrun. destruct rs as [es|].
  - right. exists es. destruct Hrs as (Hall & Hes & Hput).
    split; [exact Hall|]. split; [exact Hes|].
    rewrite (putAll_run _ _ _ Hput). cbn [caches detached]. simpl.
    rewrite ?app_nil_r, <- ?app_assoc. reflexivity.
  - left. split; [exact Hrs|]. simpl. now rewrite ?app_nil_r.
Qed.

Lemma fetches_map (reqs : list Request) : fetches (map NetworkFetch reqs) = reqs.
Proof.
  induction reqs as [|q reqs IH]; simpl; congruence.
Qed.

Lemma fetches_puts (n : string) (es : list (URL * Response)) :
  fetches (map (fun e => CachePut n (fst e) (snd e)) es) = [].
Proof.
  induction es as [|e es IH]; simpl; congruence.
Qed.

(** X9.  The install listener requests every path of the manifest, once
    and in the manifest's order, whether it then fulfils or not; and it
    fulfils exactly when every one of these requests is answered with
    a response [cache.addAll] takes: a status from 200 to 299 other
    than 206, and no [Vary: *]. *)
Theorem install_fulfils_iff_all_fetched (o : string) (net : Request -> Settled) (w : World) :
  fetches (effects (onInstall o net w)) = map (Request_of o) STATIC_ASSETS
  /\ (result (onInstall o net w) = true
      <-> forall path, In path STATIC_ASSETS ->
            exists res, net (Request_of o path) = Fulfilled res
                        /\ (200 <= status res <= 299)%Z
                        /\ status res <> 206%Z
                        /\ vary_star (headers res) = false).
Proof.
  assert (Hok : forallb (fetched_ok net) (map (Request_of o) STATIC_ASSETS) = true
                <-> forall path, In path STATIC_ASSETS ->
                      exists res, net (Request_of o path) = Fulfilled res
                                  /\ (200 <= status res <= 299)%Z
                                  /\ status res <> 206%Z
                                  /\ vary_star (headers res) = false).
  { rewrite forallb_forall. unfold fetched_ok, addAll_accepts, put_refused, ok. split.
    - intros H path Hin. specialize (H (Request_of o path) (in_map _ _ _ Hin)).
      destruct (net (Request_of o path)) as [res|]; [|discriminate].
      exists res. split; [reflexivity|].
      apply andb_prop in H as [H Hr]. apply andb_prop in H as [H1 H2].
      apply negb_true_iff, orb_false_elim in Hr as [H3 H4].
      apply Z.leb_le in H1, H2. apply Z.eqb_neq in H3. auto.
    - intros H q Hq. apply in_map_iff in Hq as (path & <- & Hin).
      destruct (H path Hin) as (res & -> & [H1 H2] & H3 & H4).
      apply Z.leb_le in H1, H2. apply Z.eqb_neq in H3.
      now rewrite H1, H2, H3, H4. }
  destruct (onInstall_run o net w) as [[Hall E]|(es & Hall & _ & E)]; rewrite E;
    unfold effects, result; cbn [fst snd fetches].
  - rewrite fetches_map. split; [reflexivity|].
    rewrite <- Hok, Hall. split; discriminate.
  - rewrite fetches_app, fetches_map, fetches_app, fetches_puts. cbn [fetches].
    rewrite !app_nil_r. split; [reflexivity|].
    rewrite <- Hok, Hall. split; reflexivity.
Qed.

(** X10.  When the install listener fulfils, the static generation
    holds, under every path of the manifest, the response the network
    gave for it; the other generations are as they were; and
    [skipWaiting] is the listener's last call. *)
Theorem install_stores_the_manifest (o : string) (net : Request -> Settled) (w : World) :
  result (onInstall o net w) = true ->
  (forall path, In path STATIC_ASSETS ->
     exists res, net (Request_of o path) = Fulfilled res
                 /\ lookup_in STATIC_CACHE (self_url o path)
                      (caches (world (onInstall o net w))) = Some res)
  /\ holds_manifest o (caches (world (onInstall o net w)))
  /\ (forall n k, n <> STATIC_CACHE ->
        lookup_in n k (caches (world (onInstall o net w))) = lookup_in n k (caches w))
  /\ exists t, effects (onInstall o net w) = t ++ [SkipWaiting].
Proof.
  destruct (onInstall_run o net w) as [[_ E]|(es & _ & Hes & E)]; rewrite E;
    unfold effects, result, world; cbn [fst snd caches]; [discriminate|].
  intros _.
  assert (Hpaths : forall path, In path STATIC_ASSETS ->
            exists res, net (Request_of o path) = Fulfilled res
              /\ lookup_in STATIC_CACHE (self_url o path)
                   (fold_left (put_entry STATIC_CACHE) es
                      (storage_open STATIC_CACHE (caches w))) = Some res).
  { intros path Hin.
    destruct (Forall2_In_l _ _ _ (Request_of o path) Hes (in_map _ _ _ Hin))
      as (e & He & Hk & Hnet).
    exists (snd e). split; [exact Hnet|].
    change (self_url o path) with (url (Request_of o path)). rewrite <- Hk.
    apply fold_put_lookup; [apply storage_has_open| |exact He].
    rewrite (Forall2_keys _ _ _ Hes). apply manifest_keys_NoDup. }
  split; [exact Hpaths|]. split; [|split].
  - intros path Hin. destruct (Hpaths path Hin) as (res & _ & H). eauto.
  - intros n k Hn. rewrite fold_put_lookup_other by now left. apply lookup_in_open.
  - eexists (_ :: _ ++ _). cbn [app]. now rewrite <- app_assoc.
Qed.

(** X11.  When the install listener rejects, it has put nothing and
    has not skipped the waiting phase: its calls are the opening of
    the static generation and the fetches, and every generation holds
    what it held before. *)
Theorem install_rejects_as_a_whole (o : string) (net : Request -> Settled) (w : World) :
  result (onInstall o net w) = false ->
  caches (world (onInstall o net w)) = storage_open STATIC_CACHE (caches w)
  /\ (forall n k, lookup_in n k (caches (world (onInstall o net w)))
                  = lookup_in n k (caches w))
  /\ effects (onInstall o net w)
     = CachesOpen STATIC_CACHE :: map NetworkFetch (map (Request_of o) STATIC_ASSETS).
Proof.
  destruct (onInstall_run o net w) as [[_ E]|(es & _ & _ & E)]; rewrite E;
    unfold effects, result, world; cbn [fst snd caches]; [|discriminate].
  intros _. split; [reflexivity|]. split; [|reflexivity].
  intros n k. apply lookup_in_open.
Qed.

(* ------------------------------------------------------------------ *)
(** ** Activation, again *)

Lemma filter_current_twice (cs : CacheStorage) :
  filter (fun e => is_current (fst e)) (filter (fun e => is_current (fst e)) cs)
  = filter (fun e => is_current (fst e)) cs.
Proof.
  induction cs as [|e cs IH]; simpl; [reflexivity|].
  destruct (is_current (fst e)) eqn:E; simpl; [|exact IH].
  rewrite E. now rewrite IH.
Qed.

Lemma no_stale_among_current (names : list string) :
  filter (fun key => negb (key =? STATIC_CACHE) && negb (key =? RUNTIME_CACHE))
         (filter is_current names) = [].
Proof.
  induction names as [|n names IH]; simpl; [reflexivity|].
  destruct (is_current n) eqn:E; simpl; [|exact IH].
  unfold is_current in E. rewrite <- negb_orb, E. exact IH.
Qed.

(** X12.  A second activation finds nothing to delete: it lists the
    keys, claims the clients, and leaves the store as the first one
    left it. *)
Theorem activate_twice (w : World) :
  onActivate (world (onActivate w))
  = (tt, world (onActivate w), [CachesKeys; ClientsClaim]).
Proof.
  rewrite (onActivate_run w). cbn [world fst snd].
  rewrite onActivate_run. cbn [caches detached].
  rewrite filter_current_twice, storage_keys_filter, no_stale_among_current.
  reflexivity.
Qed.

(** X13.  After activation a response that [caches.match] finds comes
    from one of the two current generations of the store as it was
    before: a generation of another version answers no more. *)
Theorem only_current_generations_answer (w : World) (k : URL) (r : Response) :
  storage_match k (caches (world (onActivate w))) = Some r ->
  exists n c,
    (n = STATIC_CACHE \/ n = RUNTIME_CACHE)
    /\ In (n, c) (caches w)
    /\ cache_match k c = Some r.
Proof.
  rewrite onActivate_run. cbn [world fst snd caches]. intros H.
  apply storage_match_stored in H as (n & c & Hin & Hm).
  apply filter_In in Hin as [Hin Hcur]. simpl in Hcur.
  exists n, c. split; [|now split].
  unfold is_current in Hcur. apply orb_prop in Hcur as [E|E];
    apply String.eqb_eq in E; auto.
Qed.

(* ------------------------------------------------------------------ *)
(** ** Once installed *)

Lemma holds_manifest_ext (o : string) (cs cs' : CacheStorage) :
  (forall k, lookup_in STATIC_CACHE k cs' = lookup_in STATIC_CACHE k cs) ->
  holds_manifest o cs -> holds_manifest o cs'.
Proof.
  intros E H path Hin. rewrite E. now apply H.
Qed.

(** X14.  Once the static generation holds the manifest, it goes on
    holding it: through an activation, through the handling of any
    request on any network, through a message, and through a later run
    of the install listener, whether that run fulfils or rejects. *)
Theorem manifest_is_kept (o : string) (w : World) :
  holds_manifest o (caches w) ->
  holds_manifest o (caches (world (onActivate w)))
  /\ (forall net request,
        quiescent w -> holds_manifest o (caches (world (handleFetch o net request w))))
  /\ (forall data, holds_manifest o (caches (world (onMessage data w))))
  /\ (forall net, holds_manifest o (caches (world (onInstall o net w)))).
Proof.
  intros H. split; [|split; [|split]].
  - apply (holds_manifest_ext o (caches w)); [|exact H]. intros k.
    rewrite onActivate_run. cbn [world fst snd caches]. unfold lookup_in.
    now rewrite (storage_get_filter_kept is_current).
  - intros net request Hq.
    destruct (handleFetch_caches o net request w Hq)
      as [E|[(res & _ & _ & E)|(res & _ & _ & E)]]; rewrite E; [exact H| |];
      (apply (holds_manifest_ext o (caches w)); [|exact H]); intros k; cbn [caches].
    + apply lookup_in_open.
    + rewrite lookup_in_put_other by (left; exact STATIC_not_RUNTIME).
      apply lookup_in_open.
  - intros data. unfold onMessage.
    destruct data as [d|]; [destruct (msg_type d =? "SKIP_WAITING")|]; exact H.
  - intros net.
    destruct (onInstall_run o net w) as [[_ E]|(es & _ & _ & E)]; rewrite E;
      unfold world; cbn [fst snd caches].
    + apply (holds_manifest_ext o (caches w)); [|exact H].
      intros k. apply lookup_in_open.
    + intros path Hin. destruct (H path Hin) as (r & Hr).
      apply (fold_put_keeps _ _ _ _ _ r). now rewrite lookup_in_open.
Qed.


(* ------------------------------------------------------------------ *)
(** ** These theorems at concrete requests *)

Lemma installed_holds_manifest : holds_manifest site (caches installed).
Proof.
  intros path Hin. eexists.
  repeat (destruct Hin as [<-|Hin]; [vm_compute; reflexivity|]). destruct Hin.
Qed.

(** The home page, requested with the network up. *)
Lemma network_first_answers_without_reading_the_cache_witness :
  (isNavigation home = true \/ isApi home = true)
  /\ network_up home = Fulfilled (asset "/")
  /\ onFetch site network_up home installed
     = (RespondWith (Some (asset "/")),
        {| caches := caches installed;
           detached := [{| target := RUNTIME_CACHE; key := url home;
                           copy := asset "/" |}] |},
        [NetworkFetch home; CachesOpen RUNTIME_CACHE]).
Proof.
  assert (Hc : isNavigation home = true \/ isApi home = true) by (left; reflexivity).
  assert (Hnet : network_up home = Fulfilled (asset "/")) by reflexivity.
  split; [exact Hc|]. split; [exact Hnet|].
  exact (network_first_answers_without_reading_the_cache site network_up home installed
           (asset "/") Hc Hnet).
Defined.

(** The API, called again with the network down. *)
Lemma api_failure_with_cache_serves_the_copy_witness :
  isApi api_users = true
  /\ network_down api_users = Rejected
  /\ storage_match (url api_users) (caches visited) = Some (asset "/api/users")
  /\ onFetch site network_down api_users visited
     = (RespondWith (Some (asset "/api/users")), visited,
        [NetworkFetch api_users; CachesMatch (url api_users)]).
Proof.
  assert (Hc : isApi api_users = true) by reflexivity.
  assert (Hnet : network_down api_users = Rejected) by reflexivity.
  assert (Hhit : storage_match (url api_users) (caches visited)
                 = Some (asset "/api/users")) by (vm_compute; reflexivity).
  split; [exact Hc|]. split; [exact Hnet|]. split; [exact Hhit|].
  exact (api_failure_with_cache_serves_the_copy site network_down api_users visited
           (asset "/api/users") Hc Hnet Hhit).
Defined.

(** A font requested with the network down. *)
Lemma rejected_fetch_leaves_the_store_witness :
  quiescent installed
  /\ network_down font = Rejected
  /\ world (handleFetch site network_down font installed) = installed.
Proof.
  assert (Hq : quiescent installed) by reflexivity.
  assert (Hnet : network_down font = Rejected) by reflexivity.
  split; [exact Hq|]. split; [exact Hnet|].
  exact (rejected_fetch_leaves_the_store site network_down font installed Hq Hnet).
Defined.

(** The home page answered with a 404 leaves the stylesheet where it
    was. *)
Lemma other_entries_are_untouched_witness :
  quiescent installed
  /\ url stylesheet <> url home
  /\ storage_match (url stylesheet)
       (caches (world (handleFetch site network_404 home installed)))
     = storage_match (url stylesheet) (caches installed)
  /\ (storage_keys (caches (world (handleFetch site network_404 home installed)))
      = storage_keys (caches installed)
      \/ storage_keys (caches (world (handleFetch site network_404 home installed)))
         = storage_keys (caches installed) ++ [RUNTIME_CACHE]).
Proof.
  assert (Hq : quiescent installed) by reflexivity.
  assert (Hk : url stylesheet <> url home) by discriminate.
  destruct (other_entries_are_untouched site network_404 home installed Hq)
    as (Hother & _ & Hkeys).
  split; [exact Hq|]. split; [exact Hk|].
  split; [exact (proj1 (Hother (url stylesheet) Hk))|exact Hkeys].
Defined.

(** The stylesheet, which the static generation holds. *)
Lemma a_hit_stays_a_hit_witness :
  quiescent installed
  /\ storage_match (url stylesheet) (caches installed) = Some (asset "/styles/main.css")
  /\ (storage_match (url stylesheet)
        (caches (world (handleFetch site network_404 stylesheet installed)))
      = Some (asset "/styles/main.css")
      \/ exists res,
           network_404 stylesheet = Fulfilled res
           /\ storage_match (url stylesheet)
                (caches (world (handleFetch site network_404 stylesheet installed)))
              = Some res).
Proof.
  assert (Hq : quiescent installed) by reflexivity.
  assert (Hhit : storage_match (url stylesheet) (caches installed)
                 = Some (asset "/styles/main.css")) by (vm_compute; reflexivity).
  split; [exact Hq|]. split; [exact Hhit|].
  exact (a_hit_stays_a_hit site network_404 stylesheet installed
           (asset "/styles/main.css") Hq Hhit).
Defined.

(** The API answered with a 404 while online, then called offline. *)
Lemma offline_replay_of_the_last_response_witness :
  (isNavigation api_users = true \/ isApi api_users = true)
  /\ quiescent installed
  /\ network_404 api_users = Fulfilled missing
  /\ put_refused missing = false
  /\ network_down api_users = Rejected
  /\ result (handleFetch site network_down api_users
               (world (handleFetch site network_404 api_users installed)))
     = RespondWith (Some missing).
Proof.
  assert (Hc : isNavigation api_users = true \/ isApi api_users = true)
    by (right; reflexivity).
  assert (Hq : quiescent installed) by reflexivity.
  assert (Honly : forall n c, In (n, c) (caches installed) -> n <> RUNTIME_CACHE ->
                              cache_match (url api_users) c = None).
  { intros n c Hin _. vm_compute in Hin. destruct Hin as [E|[]].
    injection E as <- <-. vm_compute. reflexivity. }
  assert (Hup : network_404 api_users = Fulfilled missing) by reflexivity.
  assert (Htaken : put_refused missing = false) by reflexivity.
  assert (Hdown : network_down api_users = Rejected) by reflexivity.
  split; [exact Hc|]. split; [exact Hq|]. split; [exact Hup|].
  split; [exact Htaken|]. split; [exact Hdown|].
  exact (proj2 (offline_replay_of_the_last_response site network_404 network_down
                  api_users installed missing Hc Hq Honly Hup Htaken Hdown)).
Defined.

(** The home page, which the manifest preloads: answered with a 404
    while online, then requested offline. *)
Lemma older_generation_shadows_the_fresh_copy_witness :
  (isNavigation home = true \/ isApi home = true)
  /\ quiescent installed
  /\ storage_has RUNTIME_CACHE (caches installed) = false
  /\ storage_match (url home) (caches installed) = Some (asset "/")
  /\ result (handleFetch site network_404 home installed) = RespondWith (Some missing)
  /\ lookup_in RUNTIME_CACHE (url home)
       (caches (world (handleFetch site network_404 home installed))) = Some missing
  /\ result (handleFetch site network_down home
               (world (handleFetch site network_404 home installed)))
     = RespondWith (Some (asset "/")).
Proof.
  assert (Hc : isNavigation home = true \/ isApi home = true) by (left; reflexivity).
  assert (Hq : quiescent installed) by reflexivity.
  assert (Hcs : caches installed = caches installed ++ []) by (symmetry; apply app_nil_r).
  assert (Hold : storage_has RUNTIME_CACHE (caches installed) = false)
    by (vm_compute; reflexivity).
  assert (Hhit : storage_match (url home) (caches installed) = Some (asset "/"))
    by (vm_compute; reflexivity).
  assert (Hup : network_404 home = Fulfilled missing) by reflexivity.
  assert (Hdown : network_down home = Rejected) by reflexivity.
  split; [exact Hc|]. split; [exact Hq|]. split; [exact Hold|]. split; [exact Hhit|].
  destruct (older_generation_shadows_the_fresh_copy site network_404 network_down home
              installed (caches installed) [] (asset "/") missing
              Hc Hq Hcs Hold Hhit Hup Hdown) as (Hlive & Hcopy & Hstale).
  split; [exact Hlive|]. split; [exact (Hcopy eq_refl)|exact Hstale].
Defined.

(** A first install with the network up. *)
Lemma install_stores_the_manifest_witness :
  result (onInstall site network_up fresh) = true
  /\ lookup_in STATIC_CACHE (self_url site "/offline.html")
       (caches (world (onInstall site network_up fresh)))
     = Some (asset "/offline.html")
  /\ holds_manifest site (caches (world (onInstall site network_up fresh))).
Proof.
  assert (Hok : result (onInstall site network_up fresh) = true)
    by (vm_compute; reflexivity).
  destruct (install_stores_the_manifest site network_up fresh Hok) as (Hpaths & Hall & _).
  split; [exact Hok|]. split; [|exact Hall].
  destruct (Hpaths "/offline.html") as (res & Hnet & Hres).
  - right; right; left; reflexivity.
  - injection Hnet as <-. exact Hres.
Defined.

(** A first install with the network down. *)
Lemma install_rejects_as_a_whole_witness :
  result (onInstall site network_down fresh) = false
  /\ caches (world (onInstall site network_down fresh)) = [(STATIC_CACHE, [])]
  /\ effects (onInstall site network_down fresh)
     = CachesOpen STATIC_CACHE :: map NetworkFetch (map (Request_of site) STATIC_ASSETS).
Proof.
  assert (Hno : result (onInstall site network_down fresh) = false)
    by (vm_compute; reflexivity).
  destruct (install_rejects_as_a_whole site network_down fresh Hno) as (Hcs & _ & Heff).
  split; [exact Hno|]. split; [exact Hcs|exact Heff].
Defined.

(** A store with the static generation of an earlier version. *)
Lemma only_current_generations_answer_witness :
  storage_match (at_path "/") (caches upgraded) = Some missing
  /\ storage_match (at_path "/") (caches (world (onActivate upgraded))) = Some (asset "/")
  /\ exists n c,
       (n = STATIC_CACHE \/ n = RUNTIME_CACHE)
       /\ In (n, c) (caches upgraded)
       /\ cache_match (at_path "/") c = Some (asset "/").
Proof.
  assert (Hhit : storage_match (at_path "/") (caches (world (onActivate upgraded)))
                 = Some (asset "/")) by (vm_compute; reflexivity).
  split; [vm_compute; reflexivity|]. split; [exact Hhit|].
  exact (only_current_generations_answer upgraded (at_path "/") (asset "/") Hhit).
Defined.

(** The installed store, through an activation and a request. *)
Lemma manifest_is_kept_witness :
  holds_manifest site (caches installed)
  /\ holds_manifest site (caches (world (onActivate installed)))
  /\ holds_manifest site (caches (world (handleFetch site network_404 home installed)))
  /\ holds_manifest site (caches (world (onInstall site network_down installed))).
Proof.
  destruct (manifest_is_kept site installed installed_holds_manifest)
    as (Hact & Hfetch & _ & Hinst).
  split; [exact installed_holds_manifest|]. split; [exact Hact|].
  split; [exact (Hfetch network_404 home eq_refl)|exact (Hinst network_down)].
Defined.

